(** * pan/config.py: the configuration store of Pan Transit

    A shallow embedding of [pan.config.ConfigurationStore] and of the
    module level dictionary [DEFAULTS], followed by the properties of the
    store that its specification states.

    The values that callers pass, the documents that are loaded and the
    tree of [DEFAULTS] are JSON values: the values that [json.load] can
    return, with numbers restricted to integers, dictionaries plain
    [dict]s with string keys, in insertion order.  The live store is a
    tree of objects: its dictionaries are [AttrDict]s, whose attributes
    are their keys ([self.__dict__ = self]), or plain [dict]s that a deep
    copy has brought in; a key of an [AttrDict] hides the method of the
    same name.  No object is reachable along two paths: callers pass
    trees, and every value that enters the store is a deep copy.
    [_register] and [_update] work on the whole store and on the whole
    of [DEFAULTS], at the places that their arguments [root] and
    [defaults] denote.  The interpreter has the stack and the memory that
    the module needs, apart from what [copy.deepcopy] does, which may
    raise.  The last part ([Module Heap]) models objects with identity,
    for the properties that are about aliasing itself. *)

From Stdlib Require Import ZArith List String Ascii Bool Lia Arith.
From Stdlib Require Import SpecFloat.
From Stdlib Require Import DecimalString.
Import ListNotations.
Local Open Scope string_scope.
Local Open Scope Z_scope.
Local Open Scope list_scope.

Set Implicit Arguments.

(* ===================================================================== *)
(** * Python values, exceptions and outcomes *)
(* ===================================================================== *)

#[warnings="-register-all"]
Inductive value : Type :=
| VNone
| VBool (b : bool)
| VInt (n : Z)
| VFloat (x : spec_float)
| VStr (s : string)
| VList (items : list value)
| VDict (items : list (string * value)).

(** The exception classes the module can meet; all derive from
    [Exception], so [except Exception] and [silent(Exception)] catch each
    of them. *)
Inductive exn : Type :=
| AttributeError
| KeyError
| IndexError
| TypeError
| ValueError
| OverflowError
| OSError
| RecursionError
| CopyError          (* [copy.Error] *)
| Unmodelled.

(** [Unmodelled] is no exception of Python.  A run ends with it where it
    leaves what the trees can describe: a call of [_update] goes on
    working in a dictionary that has been replaced in the store,
    [copy.deepcopy] is led to another protocol by a key
    ["__reduce_ex__"], or a [nan] is looked for in a list.  No handler
    catches it. *)

Inductive result (A : Type) : Type :=
| Ok (a : A)
| Raise (e : exn).
Arguments Ok {A} a.
Arguments Raise {A} e.

Definition bind {A B} (r : result A) (k : A -> result B) : result B :=
  match r with
  | Ok a => k a
  | Raise e => Raise e
  end.

Declare Scope py_scope.
Delimit Scope py_scope with py.
Notation "x <- c ;; k" := (bind c (fun x => k))
  (at level 100, c at next level, right associativity) : py_scope.
Local Open Scope py_scope.

(** What the module prints on [sys.stderr]: the line of [_update] for a
    discarded pair (it shows [repr(full_name)], [repr(value)] and
    [str(error)]), and the traceback that [pan.util.silent] prints. *)
Inductive diag : Type :=
| Discarded (full_name : string) (offending : value) (error : exn)
| Traceback (error : exn).

(** ** Builtins whose result is text

    The conversions of the interpreter that the module calls through
    [type(ref)(value)] and that read or produce text are an interface:
    every theorem below holds for any implementation of it.  An
    implementation for ASCII text follows, on which the examples run. *)
Class Builtins : Type := {
  (** [int(s)] for a string [s]; [None] is [ValueError]. *)
  int_of_str : string -> option Z;
  (** [float(s)] for a string [s]; [None] is [ValueError]. *)
  float_of_str : string -> option spec_float;
  (** [str(v)] for a value that is not a string. *)
  text_of : value -> string;
  (** [list(s)]: the characters of a string, each a string. *)
  chars_of : string -> list string;
  (** [dict(l)] for a list [l] of key/value pairs. *)
  dict_of_list : list value -> result (list (string * value));
  (** [copy.deepcopy(v)] for a JSON value [v]: [None] when it returns
      (the copy is then equal to [v]), the exception when it raises
      ([RecursionError], where [v] is nested deeper than the stack
      allows). *)
  copy_raises : value -> option exn
}.

(* ===================================================================== *)
(** * Operations of the interpreter on values *)
(* ===================================================================== *)

Definition is_dict (v : value) : bool :=
  match v with VDict _ => true | _ => false end.

Definition is_list (v : value) : bool :=
  match v with VList _ => true | _ => false end.

(** Truth value of an object: [if ref], [if not values]. *)
Definition truthy (v : value) : bool :=
  match v with
  | VNone => false
  | VBool b => b
  | VInt n => negb (n =? 0)
  | VFloat x => match x with S754_zero _ => false | _ => true end
  | VStr s => negb (s =? "")%string
  | VList l => match l with [] => false | _ => true end
  | VDict d => match d with [] => false | _ => true end
  end.


Section Dict.
Variable V : Type.

Fixpoint lookup (k : string) (d : list (string * V)) : option V :=
  match d with
  | [] => None
  | (k', v) :: d' => if (k =? k')%string then Some v else lookup k d'
  end.

Definition mem (k : string) (d : list (string * V)) : bool :=
  match lookup k d with Some _ => true | None => false end.

(** [d[k] = v]: an existing key keeps its position, a new one goes last. *)
Fixpoint dict_set (k : string) (v : V) (d : list (string * V))
  : list (string * V) :=
  match d with
  | [] => [(k, v)]
  | (k', v') :: d' =>
      if (k =? k')%string then (k, v) :: d' else (k', v') :: dict_set k v d'
  end.

(** [del d[k]] for a key that is present. *)
Fixpoint dict_del (k : string) (d : list (string * V)) : list (string * V) :=
  match d with
  | [] => []
  | (k', v') :: d' =>
      if (k =? k')%string then d' else (k', v') :: dict_del k d'
  end.

Definition keys (d : list (string * V)) : list string := map fst d.
End Dict.

(** [needle in hay] on strings. *)
Fixpoint substring_of (needle hay : string) : bool :=
  prefix needle hay
  || match hay with
     | EmptyString => false
     | String _ hay' => substring_of needle hay'
     end.

(** A [float] is given by its IEEE 754 value.  [x == n] for a float [x]
    and an integer [n] compares the two numbers exactly. *)
Definition float_eq_int (x : spec_float) (n : Z) : bool :=
  match x with
  | S754_zero _ => (n =? 0)
  | S754_finite s m e =>
      let m := if s then Z.neg m else Z.pos m in
      if 0 <=? e then (n =? m * 2 ^ e) else (n * 2 ^ (- e) =? m)
  | S754_infinity _ | S754_nan => false
  end.

(** [int(x)] for a float [x]: towards zero. *)
Definition int_of_float (x : spec_float) : result Z :=
  match x with
  | S754_zero _ => Ok 0
  | S754_finite s m e =>
      let n := if 0 <=? e then Z.pos m * 2 ^ e else Z.pos m / 2 ^ (- e) in
      Ok (if s then - n else n)
  | S754_infinity _ => Raise OverflowError
  | S754_nan => Raise ValueError
  end.

(** [float(n)] for an integer [n]: the nearest float, the even one of
    two. *)
Definition float_of_int (n : Z) : result spec_float :=
  match binary_normalize 53 1024 n 0 false with
  | S754_infinity _ => Raise OverflowError
  | x => Ok x
  end.

Definition int_of_bool (b : bool) : Z := if b then 1 else 0.

(** [a == b]. [bool] is a subclass of [int], so [True == 1]; dictionaries
    compare as mappings, whatever the order of their keys. *)
Fixpoint py_eq (a b : value) {struct a} : bool :=
  match a, b with
  | VNone, VNone => true
  | VBool x, VBool y => Bool.eqb x y
  | VBool x, VInt n => (n =? int_of_bool x)
  | VInt n, VBool x => (n =? int_of_bool x)
  | VInt x, VInt y => (x =? y)
  | VFloat x, VFloat y => SFeqb x y
  | VFloat x, VInt n => float_eq_int x n
  | VInt n, VFloat x => float_eq_int x n
  | VFloat x, VBool b => float_eq_int x (int_of_bool b)
  | VBool b, VFloat x => float_eq_int x (int_of_bool b)
  | VStr x, VStr y => (x =? y)%string
  | VList xs, VList ys =>
      (fix all2 (xs ys : list value) {struct xs} : bool :=
         match xs, ys with
         | [], [] => true
         | x :: xs', y :: ys' => py_eq x y && all2 xs' ys'
         | _, _ => false
         end) xs ys
  | VDict xs, VDict ys =>
      (List.length xs =? List.length ys)%nat
      && (fix sub (xs : list (string * value)) {struct xs} : bool :=
            match xs with
            | [] => true
            | (k, x) :: xs' =>
                match lookup k ys with
                | Some y => py_eq x y && sub xs'
                | None => false
                end
            end) xs
  | _, _ => false
  end.

(** The value has a [nan] in it.  A [nan] is equal to no float, to the
    same object apart, and a tree does not tell whether two of them are
    one object. *)
Fixpoint has_nan (v : value) : bool :=
  match v with
  | VFloat S754_nan => true
  | VList l =>
      (fix any (l : list value) : bool :=
         match l with
         | [] => false
         | x :: l' => has_nan x || any l'
         end) l
  | VDict d =>
      (fix any (d : list (string * value)) : bool :=
         match d with
         | [] => false
         | (_, x) :: d' => has_nan x || any d'
         end) d
  | _ => false
  end.

(** [item in container]. *)
Definition py_in (item container : value) : result bool :=
  match container with
  | VDict d =>
      match item with
      | VStr k => Ok (mem k d)
      | VNone | VBool _ | VInt _ | VFloat _ => Ok false
      | VList _ | VDict _ => Raise TypeError      (* unhashable *)
      end
  | VList l =>
      if has_nan item then Raise Unmodelled
      else Ok (existsb (fun e => py_eq e item) l)
  | VStr hay =>
      match item with
      | VStr needle => Ok (substring_of needle hay)
      | _ => Raise TypeError
      end
  | VNone | VBool _ | VInt _ | VFloat _ => Raise TypeError (* not iterable *)
  end.

(** [container[name]] for a string [name]. *)
Definition getitem (container : value) (name : string) : result value :=
  match container with
  | VDict d =>
      match lookup name d with
      | Some v => Ok v
      | None => Raise KeyError
      end
  | _ => Raise TypeError
  end.

(** [container[name] = v] for a string [name]. *)
Definition setitem (container : value) (name : string) (v : value)
  : result value :=
  match container with
  | VDict d => Ok (VDict (dict_set name v d))
  | _ => Raise TypeError
  end.

(** [container.setdefault(name, default)]: the container afterwards and
    the value returned. *)
Definition setdefault (container : value) (name : string) (default : value)
  : result (value * value) :=
  match container with
  | VDict d =>
      match lookup name d with
      | Some v => Ok (container, v)
      | None => Ok (VDict (d ++ [(name, default)]), default)
      end
  | _ => Raise AttributeError
  end.

(** [values.items()]. *)
Definition items_of (values : value) : result (list (string * value)) :=
  match values with
  | VDict d => Ok d
  | _ => Raise AttributeError
  end.

(** The pairs of a dictionary. *)
Definition items_or_nil (v : value) : list (string * value) :=
  match v with
  | VDict d => d
  | _ => []
  end.

(** [ref[0]]. *)
Definition getitem0 `{Builtins} (ref : value) : result value :=
  match ref with
  | VList (x :: _) => Ok x
  | VList [] => Raise IndexError
  | VStr s =>
      match chars_of s with
      | c :: _ => Ok (VStr c)
      | [] => Raise IndexError
      end
  | VDict _ => Raise KeyError
  | VNone | VBool _ | VInt _ | VFloat _ => Raise TypeError
  end.

(** [l.remove(x)]: drops the first element equal to [x]. *)
Fixpoint remove_first (x : value) (l : list value) : result (list value) :=
  match l with
  | [] => Raise ValueError
  | e :: l' =>
      if py_eq e x then Ok l'
      else (l'' <- remove_first x l' ;; Ok (e :: l''))
  end.

(** [type(ref)(value)]: the constructor of the class of [ref] applied to
    [value]. *)
Definition construct `{Builtins} (ref v : value) : result value :=
  match ref with
  | VNone => Raise TypeError                    (* NoneType takes no argument *)
  | VBool _ => Ok (VBool (truthy v))
  | VInt _ =>
      match v with
      | VInt n => Ok (VInt n)
      | VBool b => Ok (VInt (int_of_bool b))
      | VFloat x => n <- int_of_float x ;; Ok (VInt n)
      | VStr s =>
          match int_of_str s with
          | Some n => Ok (VInt n)
          | None => Raise ValueError
          end
      | VNone | VList _ | VDict _ => Raise TypeError
      end
  | VFloat _ =>
      match v with
      | VFloat x => Ok (VFloat x)
      | VInt n => x <- float_of_int n ;; Ok (VFloat x)
      | VBool b => x <- float_of_int (int_of_bool b) ;; Ok (VFloat x)
      | VStr s =>
          match float_of_str s with
          | Some x => Ok (VFloat x)
          | None => Raise ValueError
          end
      | VNone | VList _ | VDict _ => Raise TypeError
      end
  | VStr _ =>
      match v with
      | VStr s => Ok (VStr s)
      | _ => Ok (VStr (text_of v))
      end
  | VList _ =>
      match v with
      | VList l => Ok (VList l)
      | VStr s => Ok (VList (map VStr (chars_of s)))
      | VDict d => Ok (VList (map VStr (keys d)))
      | VNone | VBool _ | VInt _ | VFloat _ => Raise TypeError
      end
  | VDict _ =>
      match v with
      | VDict d => Ok (VDict d)
      | VList l => d <- dict_of_list l ;; Ok (VDict d)
      | VStr s =>
          match chars_of s with
          | [] => Ok (VDict [])
          | _ :: _ => Raise ValueError        (* an element of length 1 *)
          end
      | VNone | VBool _ | VInt _ | VFloat _ => Raise TypeError
      end
  end.

(* ===================================================================== *)
(** * The objects of the live store *)
(* ===================================================================== *)

(** An object of the store: a value that is no dictionary, the elements
    of a list being JSON values; or a dictionary, which is an [AttrDict]
    whose attributes are its keys ([attr] is [true]: the store itself and
    the sections that [_split_option], [_register] and [_update] create)
    or has no such attributes (a plain [dict], or the copy of an
    [AttrDict]: [copy.deepcopy] does not run [AttrDict.__init__]). *)
#[warnings="-register-all"]
Inductive node : Type :=
| NNone
| NBool (b : bool)
| NInt (n : Z)
| NFloat (x : spec_float)
| NStr (s : string)
| NList (items : list value)
| NDict (attr : bool) (items : list (string * node)).

(** A JSON value as an object of the store, and back. *)
Fixpoint embed (v : value) : node :=
  match v with
  | VNone => NNone
  | VBool b => NBool b
  | VInt n => NInt n
  | VFloat x => NFloat x
  | VStr s => NStr s
  | VList l => NList l
  | VDict d => NDict false (map (fun kv => (fst kv, embed (snd kv))) d)
  end.

Fixpoint forget (n : node) : value :=
  match n with
  | NNone => VNone
  | NBool b => VBool b
  | NInt n => VInt n
  | NFloat x => VFloat x
  | NStr s => VStr s
  | NList l => VList l
  | NDict _ items => VDict (map (fun kn => (fst kn, forget (snd kn))) items)
  end.

Definition is_none (n : node) : bool :=
  match n with NNone => true | _ => false end.

Definition v_is_none (v : value) : bool :=
  match v with VNone => true | _ => false end.

(** [obj.name] finds a key of [obj] instead of the method [name]. *)
Definition hides (obj : node) (name : string) : bool :=
  match obj with
  | NDict true items => mem name items
  | _ => false
  end.

(** [container[name]] for a string [name]. *)
Definition node_getitem (container : node) (name : string) : result node :=
  match container with
  | NDict _ items =>
      match lookup name items with
      | Some n => Ok n
      | None => Raise KeyError
      end
  | _ => Raise TypeError
  end.

(** [container[name] = n] for a string [name]. *)
Definition node_setitem (container : node) (name : string) (n : node)
  : result node :=
  match container with
  | NDict attr items => Ok (NDict attr (dict_set name n items))
  | _ => Raise TypeError
  end.

(** [item in container]. *)
Definition node_in (item : value) (container : node) : result bool :=
  py_in item (forget container).

(** [root.setdefault]: the attribute.  [Ok true] is the method of
    [dict]; [Ok false] is a key ["setdefault"] of an [AttrDict], which
    cannot be called. *)
Definition attr_setdefault (root : node) : result bool :=
  match root with
  | NDict attr items => Ok (negb (attr && mem "setdefault" items))
  | _ => Raise AttributeError
  end.

(** [dict.setdefault(root, name, new)]: the dictionary afterwards and the
    object returned. *)
Definition dict_setdefault (root : node) (name : string) (new : node)
  : node * node :=
  match root with
  | NDict attr items =>
      match lookup name items with
      | Some n => (root, n)
      | None => (NDict attr (items ++ [(name, new)]), new)
      end
  | _ => (root, NNone)
  end.

(** The object that the keys [p] lead to, and the tree in which this
    object is replaced. *)
Fixpoint sub (n : node) (p : list string) : option node :=
  match p with
  | [] => Some n
  | k :: p' =>
      match n with
      | NDict _ items =>
          match lookup k items with
          | Some c => sub c p'
          | None => None
          end
      | _ => None
      end
  end.

Fixpoint plug (n : node) (p : list string) (new : node) : node :=
  match p with
  | [] => new
  | k :: p' =>
      match n with
      | NDict attr items =>
          match lookup k items with
          | Some c => NDict attr (dict_set k (plug c p' new) items)
          | None => n
          end
      | _ => n
      end
  end.

Fixpoint vsub (v : value) (p : list string) : option value :=
  match p with
  | [] => Some v
  | k :: p' =>
      match v with
      | VDict items =>
          match lookup k items with
          | Some c => vsub c p'
          | None => None
          end
      | _ => None
      end
  end.

Fixpoint vplug (v : value) (p : list string) (new : value) : value :=
  match p with
  | [] => new
  | k :: p' =>
      match v with
      | VDict items =>
          match lookup k items with
          | Some c => VDict (dict_set k (vplug c p' new) items)
          | None => v
          end
      | _ => v
      end
  end.

(** ** [copy.deepcopy] *)

(** Of a JSON value. *)
Definition deepcopy `{Builtins} (v : value) : result value :=
  match copy_raises v with
  | Some e => Raise e
  | None => Ok v
  end.

(** What [copy.deepcopy] looks up on an [AttrDict] before it copies the
    items (the module [copy] of CPython 3.11): [__deepcopy__] and
    [__reduce_ex__], which it calls when they are not [None], and through
    [object.__reduce_ex__] the attributes [__getstate__] and [items].  A
    key of one of these names is found, and the call of its value raises
    [TypeError].  A key ["__reduce_ex__"] with the value [None] sends
    [copy.deepcopy] to [__reduce__]. *)
Definition copy_hook (items : list (string * node)) : option exn :=
  match lookup "__deepcopy__" items with
  | Some NNone | None =>
      match lookup "__reduce_ex__" items with
      | Some NNone => Some Unmodelled
      | Some _ => Some TypeError
      | None =>
          if mem "__getstate__" items || mem "items" items
          then Some TypeError else None
      end
  | Some _ => Some TypeError
  end.

(** The copy of an object of the store, as far as the stack does not
    matter: a JSON value. *)
Fixpoint copy_tree (n : node) : result value :=
  match n with
  | NNone => Ok VNone
  | NBool b => Ok (VBool b)
  | NInt n => Ok (VInt n)
  | NFloat x => Ok (VFloat x)
  | NStr s => Ok (VStr s)
  | NList l => Ok (VList l)
  | NDict attr items =>
      match (if attr then copy_hook items else None) with
      | Some e => Raise e
      | None =>
          d <- (fix each (items : list (string * node))
                  : result (list (string * value)) :=
                  match items with
                  | [] => Ok []
                  | (k, x) :: rest =>
                      x' <- copy_tree x ;;
                      rest' <- each rest ;;
                      Ok ((k, x') :: rest')
                  end) items ;;
          Ok (VDict d)
      end
  end.

(** Of an object of the store. *)
Definition deepcopy_node `{Builtins} (n : node) : result value :=
  v <- copy_tree n ;; deepcopy v.

(** [_coerce(self, value, ref)]. *)
Fixpoint _coerce `{Builtins} (self : node) (val ref : value) {struct val}
  : result value :=
  match val with
  | VList xs =>
      if truthy ref then
        xs' <- (fix each (xs : list value) : result (list value) :=
                  match xs with
                  | [] => Ok []
                  | x :: rest =>
                      ref0 <- getitem0 ref ;;
                      x' <- (if hides self "_coerce" then Raise TypeError
                             else _coerce self x ref0) ;;
                      rest' <- each rest ;;
                      Ok (x' :: rest')
                  end) xs ;;
        Ok (VList xs')
      else construct ref val
  | _ => construct ref val
  end.

(* ===================================================================== *)
(** * The process: defaults, store, diagnostics, files *)
(* ===================================================================== *)
(** The initial value of the module level [DEFAULTS]. *)
Definition DEFAULTS : value :=
  VDict [ ("departure_time_cutoff", VInt 10);
          ("favorite_highlight_radius", VInt 1000);
          ("provider", VStr "digitransit");
          ("units", VStr "metric") ].

(** Modelled from the spec: the package [pan] that hosts the module is not
    part of the sources; the store reads from it the configuration
    directory and the version of the application. *)
Class Host : Type := {
  CONFIG_HOME_DIR : string;
  __version__ : string
}.

(** Modelled from the spec: what [pan.util.read_json] and
    [pan.util.write_json] find at a path.  A regular file holds a JSON
    document, text that is not JSON, or cannot be opened; a path in
    [locked] cannot be written. *)
Inductive file : Type :=
| FJson (doc : value)
| FGarbled
| FUnreadable.

Record filesystem : Type := {
  files : list (string * file);
  locked : list string
}.


Record state : Type := {
  defaults : value;          (* the current value of [DEFAULTS] *)
  self : node;               (* the store *)
  stderr : list diag;
  disk : filesystem
}.

Definition with_self (st : state) (s : node) : state :=
  {| defaults := defaults st; self := s; stderr := stderr st; disk := disk st |}.

Definition with_trees (st : state) (s : node) (d : value) (err : list diag)
  : state :=
  {| defaults := d; self := s; stderr := err; disk := disk st |}.

Definition with_stderr (st : state) (err : list diag) : state :=
  {| defaults := defaults st; self := self st; stderr := err; disk := disk st |}.

Definition with_disk (st : state) (fs : filesystem) : state :=
  {| defaults := defaults st; self := self st; stderr := stderr st; disk := fs |}.

(** [os.path.isfile(path)]. *)
Definition isfile (fs : filesystem) (path : string) : bool :=
  mem path (files fs).

(** Modelled from the spec: [pan.util.read_json(path)]. *)
Definition read_json (fs : filesystem) (path : string) : result value :=
  match lookup path (files fs) with
  | Some (FJson doc) => Ok doc
  | Some FGarbled => Raise ValueError
  | Some FUnreadable => Raise OSError
  | None => Raise OSError
  end.

(** Modelled from the spec: [pan.util.write_json(data, path)]. *)
Definition write_json (fs : filesystem) (data : value) (path : string)
  : result filesystem :=
  if existsb (String.eqb path) (locked fs) then Raise OSError
  else Ok {| files := dict_set path (FJson data) (files fs);
             locked := locked fs |}.

(** [os.path.join(a, b)] for a relative [b]. *)
Fixpoint ends_with_slash (a : string) : bool :=
  match a with
  | EmptyString => false
  | String c EmptyString => Ascii.eqb c "/"
  | String _ a' => ends_with_slash a'
  end.

Definition path_join (a b : string) : string :=
  if (a =? "")%string || ends_with_slash a then (a ++ b)%string
  else (a ++ "/" ++ b)%string.


(** [conf.name(...)], a call of the method [name] of the store from
    outside: a key [name] of the store hides the method, and the call of
    its value raises [TypeError]. *)
Definition public {A} (st : state) (name : string) (call : state * result A)
  : state * result A :=
  if hides (self st) name then (st, Raise TypeError) else call.

(** [ConfigurationStore()]: [AttrDict.__init__(self,
    copy.deepcopy(DEFAULTS))]. *)
Definition __init__ `{Builtins} (st : state) : state * result unit :=
  match (c <- deepcopy (defaults st) ;; construct (VDict []) c) with
  | Ok c =>
      (with_self st (NDict true (map (fun kv => (fst kv, embed (snd kv)))
                                     (items_or_nil c))), Ok tt)
  | Raise e => (st, Raise e)
  end.

(** The process when the module has just been imported and the store
    created. *)
Definition boot `{Builtins} (fs : filesystem) : state :=
  fst (__init__ {| defaults := DEFAULTS; self := NNone; stderr := [];
                   disk := fs |}).

(* ===================================================================== *)
(** * Dotted options *)
(* ===================================================================== *)
(** [s.split(c)] *)
Fixpoint split_on (c : ascii) (s : string) : list string :=
  match s with
  | EmptyString => [EmptyString]
  | String a s' =>
      if Ascii.eqb a c then EmptyString :: split_on c s'
      else match split_on c s' with
           | seg :: segs => String a seg :: segs
           | [] => [String a EmptyString]
           end
  end.

(** [option.split(".")[:-1]] and [option.split(".")[-1]] *)
Definition sections (option : string) : list string :=
  removelast (split_on "." option).

Definition leaf (option : string) : string :=
  last (split_on "." option) "".

(** [for section in ...: root = root[section]] *)
Fixpoint descend (root : value) (secs : list string) : result value :=
  match secs with
  | [] => Ok root
  | section :: rest => sub <- getitem root section ;; descend sub rest
  end.


Fixpoint node_descend (root : node) (secs : list string) : result node :=
  match secs with
  | [] => Ok root
  | section :: rest =>
      sub <- node_getitem root section ;; node_descend sub rest
  end.

(** [get(self, option)] *)
Definition get `{Builtins} (st : state) (option : string) : result value :=
  root <- node_descend (self st) (sections option) ;;
  n <- node_getitem root (leaf option) ;;
  deepcopy_node n.

(** [get_default(self, option)] *)
Definition get_default `{Builtins} (st : state) (option : string)
  : result value :=
  root <- descend (defaults st) (sections option) ;;
  v <- getitem root (leaf option) ;;
  deepcopy v.

(** A dictionary reached from [root] is an object of the store: what is
    done to it is done to the store.  [put_back root name sub] is [root]
    once the object [sub] under [name] has changed. *)
Definition put_back (root : node) (name : string) (sub : node) : node :=
  match root with
  | NDict attr items => NDict attr (dict_set name sub items)
  | _ => root
  end.

(** [root, name = self._split_option(option, create)] followed by [body],
    which works on the object found: [walk] returns the store afterwards
    and what [body] returned or raised. *)
Fixpoint walk {A} (create : bool) (secs : list string) (root : node)
    (body : node -> node * result A) : node * result A :=
  match secs with
  | [] => body root
  | section :: rest =>
      match (if create then node_in (VStr section) root else Ok true) with
      | Raise e => (root, Raise e)
      | Ok present =>
          match (if present then Ok root
                 else node_setitem root section (NDict true [])) with
          | Raise e => (root, Raise e)
          | Ok root1 =>
              match node_getitem root1 section with
              | Raise e => (root1, Raise e)
              | Ok sub =>
                  let '(sub', r) := walk create rest sub body in
                  (put_back root1 section sub', r)
              end
          end
      end
  end.

(** [self._split_option(option, create)], then [body]. *)
Definition _split_option {A} (st : state) (option : string) (create : bool)
    (body : node -> string -> node * result A) : state * result A :=
  if hides (self st) "_split_option" then (st, Raise TypeError)
  else
    let '(s', r) := walk create (sections option) (self st)
                      (fun root => body root (leaf option)) in
    (with_self st s', r).

(** [set(self, option, value)] *)
Definition set `{Builtins} (st : state) (option : string) (v : value)
  : state * result unit :=
  _split_option st option true (fun root name =>
    match (c <- deepcopy v ;; node_setitem root name (embed c)) with
    | Ok root' => (root', Ok tt)
    | Raise e => (root, Raise e)
    end).

(** [seq.name], for [append] and [remove]: the method of a list; a key
    of an [AttrDict], which cannot be called ([Ok None]); or nothing. *)
Definition attr_of_list (seq : node) (name : string)
  : result (option (list value)) :=
  match seq with
  | NList l => Ok (Some l)
  | NDict true items =>
      if mem name items then Ok None else Raise AttributeError
  | _ => Raise AttributeError
  end.

(** [add(self, option, item)] *)
Definition add `{Builtins} (st : state) (option : string) (item : value)
  : state * result unit :=
  _split_option st option false (fun root name =>
    match (seq <- node_getitem root name ;; node_in item seq) with
    | Raise e => (root, Raise e)
    | Ok true => (root, Ok tt)
    | Ok false =>
        match (seq <- node_getitem root name ;;
               method <- attr_of_list seq "append" ;;
               c <- deepcopy item ;;
               match method with
               | Some l => Ok (NList (l ++ [c])%list)
               | None => Raise TypeError
               end) with
        | Ok seq' => (put_back root name seq', Ok tt)
        | Raise e => (root, Raise e)
        end
    end).

(** [remove(self, option, item)] *)
Definition remove (st : state) (option : string) (item : value)
  : state * result unit :=
  _split_option st option false (fun root name =>
    match (seq <- node_getitem root name ;; node_in item seq) with
    | Raise e => (root, Raise e)
    | Ok false => (root, Ok tt)
    | Ok true =>
        match (seq <- node_getitem root name ;;
               method <- attr_of_list seq "remove" ;;
               match method with
               | Some l => l' <- remove_first item l ;; Ok (NList l')
               | None => Raise TypeError
               end) with
        | Ok seq' => (put_back root name seq', Ok tt)
        | Raise e => (root, Raise e)
        end
    end).

(** [contains(self, option, item)] *)
Definition contains (st : state) (option : string) (item : value)
  : state * result bool :=
  _split_option st option false (fun root name =>
    (root, seq <- node_getitem root name ;; node_in item seq)).

(* ===================================================================== *)
(** * Registration of defaults *)
(* ===================================================================== *)

(** What [_register] and [_update] work on: the store, [DEFAULTS] and the
    standard error stream.  Their arguments [root] and [defaults] are
    objects of these two trees, given by the keys that lead to them. *)
Record world : Type := {
  w_store : node;
  w_defaults : value;
  w_stderr : list diag
}.

Definition with_store (w : world) (s : node) : world :=
  {| w_store := s; w_defaults := w_defaults w; w_stderr := w_stderr w |}.

Definition with_defaults (w : world) (d : value) : world :=
  {| w_store := w_store w; w_defaults := d; w_stderr := w_stderr w |}.

Definition printing (w : world) (line : diag) : world :=
  {| w_store := w_store w; w_defaults := w_defaults w;
     w_stderr := (w_stderr w ++ [line])%list |}.

(** [root.setdefault(name, new)], [root] the object at [pr], where
    [new ()] gives the second argument or raises. *)
Definition root_setdefault (w : world) (pr : list string) (name : string)
    (new : unit -> result node) : world * result node :=
  match sub (w_store w) pr with
  | None => (w, Raise Unmodelled)
  | Some root =>
      match (method <- attr_setdefault root ;;
             n <- new tt ;;
             if method then Ok (dict_setdefault root name n)
             else Raise TypeError) with
      | Raise e => (w, Raise e)
      | Ok (root', got) =>
          (with_store w (plug (w_store w) pr root'), Ok got)
      end
  end.

(** [defaults.setdefault(name, new)], [defaults] the object at [pd]. *)
Definition defaults_setdefault (w : world) (pd : list string) (name : string)
    (new : unit -> result value) : world * result value :=
  match vsub (w_defaults w) pd with
  | None => (w, Raise Unmodelled)
  | Some dflt =>
      match (_ <- items_of dflt ;;
             v <- new tt ;;
             setdefault dflt name v) with
      | Raise e => (w, Raise e)
      | Ok (dflt', got) =>
          (with_defaults w (vplug (w_defaults w) pd dflt'), Ok got)
      end
  end.

(** [if root is None: root = self] and [if defaults is None: defaults =
    DEFAULTS], for the object that [setdefault] has returned at
    [p ++ [name]]. *)
Definition place (p : list string) (name : string) (none : bool)
  : list string :=
  if none then [] else (p ++ [name])%list.

(** The loop of [_register] over [values.items()], given the function for
    the nested dictionaries. *)
Definition register_items `{Builtins}
    (rec : value -> list string -> list string -> world -> world * result unit)
  : list (string * value) -> list string -> list string -> world
    -> world * result unit :=
  fix loop items pr pd w :=
    match items with
    | [] => (w, Ok tt)
    | (name, val) :: rest =>
        if is_dict val then
          let method := negb (hides (w_store w) "_register") in
          match root_setdefault w pr name (fun _ => Ok (NDict true [])) with
          | (w1, Raise e) => (w1, Raise e)
          | (w1, Ok got) =>
              match defaults_setdefault w1 pd name
                      (fun _ => Ok (VDict [])) with
              | (w2, Raise e) => (w2, Raise e)
              | (w2, Ok dgot) =>
                  if method then
                    match rec val (place pr name (is_none got))
                              (place pd name (v_is_none dgot)) w2 with
                    | (w3, Raise e) => (w3, Raise e)
                    | (w3, Ok _) => loop rest pr pd w3
                    end
                  else (w2, Raise TypeError)
              end
          end
        else
          (* Do not change values if they already exist. *)
          match root_setdefault w pr name
                  (fun _ => c <- deepcopy val ;; Ok (embed c)) with
          | (w1, Raise e) => (w1, Raise e)
          | (w1, Ok _) =>
              match defaults_setdefault w1 pd name
                      (fun _ => deepcopy val) with
              | (w2, Raise e) => (w2, Raise e)
              | (w2, Ok _) => loop rest pr pd w2
              end
          end
    end.

(** [_register(self, values, root, defaults)], [root] the object of the
    store at [pr], [defaults] the object of [DEFAULTS] at [pd]. *)
Fixpoint _register `{Builtins} (values : value) (pr pd : list string)
    (w : world) {struct values} : world * result unit :=
  match values with
  | VDict items =>
      register_items (fun v pr pd w => _register v pr pd w) items pr pd w
  | _ => (w, Raise AttributeError)
  end.

Definition world_of (st : state) : world :=
  {| w_store := self st; w_defaults := defaults st; w_stderr := stderr st |}.

Definition state_of (st : state) (w : world) : state :=
  {| defaults := w_defaults w; self := w_store w; stderr := w_stderr w;
     disk := disk st |}.

(** [register_provider(self, name, values)] *)
Definition register_provider `{Builtins} (st : state) (name : string)
    (values : value) : state * result unit :=
  if hides (self st) "_register" then (st, Raise TypeError)
  else
    let '(w, r) := _register (VDict [("providers", VDict [(name, values)])])
                             [] [] (world_of st) in
    (state_of st w, r).

(* ===================================================================== *)
(** * Loading and saving *)
(* ===================================================================== *)

(** [".".join(path + (name,))] *)
Definition full_name (path : list string) (name : string) : string :=
  String.concat "." (path ++ [name])%list.

(** [q] is the beginning of [a]. *)
Fixpoint prefix (q a : list string) : bool :=
  match q, a with
  | [], _ => true
  | k :: q', k' :: a' => (k =? k')%string && prefix q' a'
  | _ :: _, [] => false
  end.

(** How the [try] of [_update] ends for one leaf. *)
Inductive stored : Type :=
| Stored (w : world)                    (* [root[name]] has been assigned *)
| Caught (shown : value) (error : exn)  (* the handler prints *)
| Replaced.                             (* see [Unmodelled] *)

(** The body of the [try] of [_update] for one leaf.  [active] has the
    places of the dictionaries in which calls of [_update] that have not
    returned are working: an assignment that replaces one of them, or a
    dictionary above one of them, takes it out of the store. *)
Definition store_leaf `{Builtins} (w : world) (pr pd : list string)
    (name : string) (val : value) (active : list (list string)) : stored :=
  match sub (w_store w) pr, vsub (w_defaults w) pd with
  | Some root, Some dflt =>
      let assign (v : value) : stored :=
        match (c <- deepcopy v ;; node_setitem root name (embed c)) with
        | Raise e => Caught v e
        | Ok root' =>
            if existsb (prefix (pr ++ [name])) active then Replaced
            else Stored (with_store w (plug (w_store w) pr root'))
        end in
      match py_in (VStr name) dflt with
      | Raise e => Caught val e
      | Ok true =>
          (* Be liberal, but careful in what to accept. *)
          match (ref <- getitem dflt name ;;
                 if hides (w_store w) "_coerce" then Raise TypeError
                 else _coerce (w_store w) val ref) with
          | Raise e => Caught val e
          | Ok val' => assign val'
          end
      | Ok false => assign val
      end
  | _, _ => Replaced
  end.

(** The loop of [_update] over [values.items()], given the function for
    the nested dictionaries. *)
Definition update_items `{Builtins}
    (rec : value -> list string -> list string -> list string
           -> list (list string) -> world -> world * result unit)
  : list (string * value) -> list string -> list string -> list string
    -> list (list string) -> world -> world * result unit :=
  fix loop items pr pd path active w :=
    match items with
    | [] => (w, Ok tt)
    | (name, val) :: rest =>
        if is_dict val then
          let method := negb (hides (w_store w) "_update") in
          match root_setdefault w pr name (fun _ => Ok (NDict true [])) with
          | (w1, Raise e) => (w1, Raise e)
          | (w1, Ok got) =>
              match defaults_setdefault w1 pd name
                      (fun _ => Ok (VDict [])) with
              | (w2, Raise e) => (w2, Raise e)
              | (w2, Ok dgot) =>
                  if method then
                    match rec val (place pr name (is_none got))
                              (place pd name (v_is_none dgot))
                              (path ++ [name])%list (pr :: active) w2 with
                    | (w3, Raise e) => (w3, Raise e)
                    | (w3, Ok _) => loop rest pr pd path active w3
                    end
                  else (w2, Raise TypeError)
              end
          end
        else
          match store_leaf w pr pd name val active with
          | Stored w' => loop rest pr pd path active w'
          | Caught shown error =>
              loop rest pr pd path active
                   (printing w (Discarded (full_name path name) shown error))
          | Replaced => (w, Raise Unmodelled)
          end
    end.

(** [_update(self, values, root, defaults, path)], [root] the object of
    the store at [pr], [defaults] the object of [DEFAULTS] at [pd]. *)
Fixpoint _update `{Builtins} (values : value) (pr pd path : list string)
    (active : list (list string)) (w : world) {struct values}
  : world * result unit :=
  match values with
  | VDict items =>
      update_items (fun v pr pd path active w => _update v pr pd path active w)
                   items pr pd path active w
  | _ => (w, Raise AttributeError)
  end.
(** The file that [read] and [write] use when no path is given. *)
Definition default_path `{Host} : string :=
  path_join CONFIG_HOME_DIR "pan-transit.json".

Definition resolve `{Host} (path : option string) : string :=
  match path with
  | Some p => p
  | None => default_path
  end.

(** Modelled from the spec: [with pan.util.silent(Exception, tb=True)]
    around [values = pan.util.read_json(path)]: an exception leaves
    [values] as it was and its traceback goes to [stderr]. *)
Definition silent_read_json (st : state) (path : string) (values : value)
  : state * value :=
  match read_json (disk st) path with
  | Ok doc => (st, doc)
  | Raise e => (with_stderr st (stderr st ++ [Traceback e])%list, values)
  end.

(** [read(self, path)] *)
Definition read `{Builtins} `{Host} (st : state) (path : option string)
  : state * result unit :=
  let path := resolve path in
  if negb (isfile (disk st) path) then (st, Ok tt)
  else
    let '(st1, values) := silent_read_json st path (VDict []) in
    if negb (truthy values) then (st1, Ok tt)
    else if hides (self st1) "_update" then (st1, Raise TypeError)
    else
      let '(w, r) := _update values [] [] [] [] (world_of st1) in
      (state_of st1 w, r).

(** [for name in list(out.keys()): if not name in names: del out[name]] *)
Fixpoint strip (names : list string) (todo : list string)
    (out : list (string * value)) : list (string * value) :=
  match todo with
  | [] => out
  | name :: rest =>
      if existsb (String.eqb name) names then strip names rest out
      else strip names rest (dict_del name out)
  end.

(** Modelled from the spec: [with pan.util.silent(Exception, tb=True)]
    around [pan.util.write_json(out, path)]. *)
Definition silent_write_json (st : state) (out : value) (path : string)
  : state :=
  match write_json (disk st) out path with
  | Ok fs => with_disk st fs
  | Raise e => with_stderr st (stderr st ++ [Traceback e])%list
  end.

(** The document that [write] hands to [write_json]. *)
Definition written `{Builtins} `{Host} (st : state) : result value :=
  out <- deepcopy_node (self st) ;;
  dnames <- items_of (defaults st) ;;
  out <- items_of out ;;
  (* Make sure no obsolete top-level options remain. *)
  let names := (keys dnames ++ ["providers"])%list in
  let out := strip names (keys out) out in
  Ok (VDict (dict_set "version" (VStr __version__) out)).

(** [write(self, path)] *)
Definition write `{Builtins} `{Host} (st : state) (path : option string)
  : state * result unit :=
  let path := resolve path in
  match written st with
  | Raise e => (st, Raise e)
  | Ok out => (silent_write_json st out path, Ok tt)
  end.

(* ===================================================================== *)
(** * The builtins on ASCII text, and a host *)
(* ===================================================================== *)

Module Ascii_text.

Definition is_space (c : ascii) : bool :=
  let n := nat_of_ascii c in
  ((9 <=? n) && (n <=? 13) || (28 <=? n) && (n <=? 32))%nat.

Fixpoint lstrip (s : string) : string :=
  match s with
  | String c s' => if is_space c then lstrip s' else s
  | EmptyString => EmptyString
  end.

Fixpoint rstrip (s : string) : string :=
  match s with
  | EmptyString => EmptyString
  | String c s' =>
      match rstrip s' with
      | EmptyString => if is_space c then EmptyString else String c EmptyString
      | r => String c r
      end
  end.

Definition digit_of (c : ascii) : option Z :=
  let n := Z.of_nat (nat_of_ascii c) in
  if (48 <=? n) && (n <=? 57) then Some (n - 48) else None.

(** The digits after the first one; single underscores may separate
    digits. *)
Fixpoint more_digits (acc : Z) (underscore : bool) (s : string) : option Z :=
  match s with
  | EmptyString => if underscore then None else Some acc
  | String c s' =>
      match digit_of c with
      | Some d => more_digits (10 * acc + d) false s'
      | None =>
          if Ascii.eqb c "_" && negb underscore then more_digits acc true s'
          else None
      end
  end.

Definition unsigned_of (s : string) : option Z :=
  match s with
  | String c s' =>
      match digit_of c with
      | Some d => more_digits d false s'
      | None => None
      end
  | EmptyString => None
  end.

(** [int(s)] in base 10 *)
Definition int_of (s : string) : option Z :=
  match rstrip (lstrip s) with
  | String "+" s' => unsigned_of s'
  | String "-" s' => option_map Z.opp (unsigned_of s')
  | s' => unsigned_of s'
  end.

(* interim *)
Definition float_repr (x : spec_float) : string := "float".
Definition float_of (s : string) : option spec_float := None.

Definition decimal (n : Z) : string := NilZero.string_of_int (Z.to_int n).

(** [repr(v)], for strings without quotes, backslashes and control
    characters *)
Fixpoint repr (v : value) : string :=
  match v with
  | VNone => "None"
  | VBool true => "True"
  | VBool false => "False"
  | VInt n => decimal n
  | VFloat x => float_repr x
  | VStr s => ("'" ++ s ++ "'")%string
  | VList l =>
      ("[" ++ String.concat ", "
                ((fix each (l : list value) : list string :=
                    match l with
                    | [] => []
                    | x :: l' => repr x :: each l'
                    end) l) ++ "]")%string
  | VDict d =>
      ("{" ++ String.concat ", "
                ((fix each (d : list (string * value)) : list string :=
                    match d with
                    | [] => []
                    | (k, x) :: d' => ("'" ++ k ++ "': " ++ repr x) :: each d'
                    end) d) ++ "}")%string
  end.

Definition text (v : value) : string :=
  match v with
  | VStr s => s
  | _ => repr v
  end.

Fixpoint chars (s : string) : list string :=
  match s with
  | EmptyString => []
  | String c s' => String c EmptyString :: chars s'
  end.

(** [dict(l)], for pairs whose key is a string *)
Fixpoint dict_of (l : list value) (acc : list (string * value))
  : result (list (string * value)) :=
  match l with
  | [] => Ok acc
  | VList [VStr k; v] :: l' => dict_of l' (dict_set k v acc)
  | VList [_; _] :: _ => Raise TypeError
  | VStr (String a (String b EmptyString)) :: l' =>
      dict_of l' (dict_set (String a EmptyString)
                           (VStr (String b EmptyString)) acc)
  | VDict [(k1, _); (k2, _)] :: l' => dict_of l' (dict_set k1 (VStr k2) acc)
  | (VList _ | VStr _ | VDict _) :: _ => Raise ValueError
  | (VNone | VBool _ | VInt _ | VFloat _) :: _ => Raise TypeError
  end.

#[export] Instance builtins : Builtins := {
  int_of_str := int_of;
  float_of_str := float_of;
  text_of := text;
  chars_of := chars;
  dict_of_list := fun l => dict_of l [];
  copy_raises := fun _ => None
}.

#[export] Instance host : Host := {
  CONFIG_HOME_DIR := "/home/user/.config/pan-transit";
  __version__ := "1.5"
}.

End Ascii_text.

(** The examples below run on these instances; the theorems are stated
    for every implementation of the two interfaces. *)
Import Ascii_text.

(** The keys of every dictionary of a value are distinct, as they are in
    every Python dictionary. *)
Fixpoint distinct (ks : list string) : bool :=
  match ks with
  | [] => true
  | k :: ks' => negb (existsb (String.eqb k) ks') && distinct ks'
  end.

Fixpoint well_formed (v : value) : bool :=
  match v with
  | VList l =>
      (fix each (l : list value) : bool :=
         match l with
         | [] => true
         | x :: l' => well_formed x && each l'
         end) l
  | VDict d =>
      distinct (keys d)
      && (fix each (d : list (string * value)) : bool :=
            match d with
            | [] => true
            | (_, x) :: d' => well_formed x && each d'
            end) d
  | _ => true
  end.

(** Number of elements of a list equal to [x]. *)
Definition occurrences (x : value) (l : list value) : nat :=
  List.length (filter (fun e => py_eq e x) l).

(* ===================================================================== *)
(** * Properties *)
(* ===================================================================== *)

Unset Implicit Arguments.

(** ** Induction on values *)

Section Value_induction.
Variable P : value -> Prop.
Hypothesis HNone : P VNone.
Hypothesis HBool : forall b, P (VBool b).
Hypothesis HInt : forall n, P (VInt n).
Hypothesis HFloat : forall x, P (VFloat x).
Hypothesis HStr : forall s, P (VStr s).
Hypothesis HList : forall l, Forall P l -> P (VList l).
Hypothesis HDict : forall d, Forall (fun kv => P (snd kv)) d -> P (VDict d).

Fixpoint value_nested_ind (v : value) : P v :=
  match v with
  | VNone => HNone
  | VBool b => HBool b
  | VInt n => HInt n
  | VFloat x => HFloat x
  | VStr s => HStr s
  | VList l =>
      HList l ((fix go (l : list value) : Forall P l :=
                match l with
                | [] => Forall_nil P
                | x :: l' => Forall_cons x (value_nested_ind x) (go l')
                end) l)
  | VDict d =>
      HDict d ((fix go (d : list (string * value))
                : Forall (fun kv => P (snd kv)) d :=
                match d with
                | [] => Forall_nil _
                | kv :: d' =>
                    Forall_cons (P := fun kv => P (snd kv)) kv
                                (value_nested_ind (snd kv)) (go d')
                end) d)
  end.
End Value_induction.

(** ** Dictionaries *)

Section Dict_facts.
Variable V : Type.
Implicit Types (d : list (string * V)) (k : string) (v : V).

Lemma lookup_dict_set_same k v d : lookup k (dict_set k v d) = Some v.
Proof.
  induction d as [|[k' v'] d IH]; simpl.
  - now rewrite String.eqb_refl.
  - destruct (k =? k')%string eqn:E; simpl.
    + now rewrite String.eqb_refl.
    + now rewrite E.
Qed.

Lemma lookup_dict_set_other k k' v d :
  k <> k' -> lookup k' (dict_set k v d) = lookup k' d.
Proof.
  intros Hne. induction d as [|[k1 v1] d IH]; simpl.
  - destruct (k' =? k)%string eqn:E; [|reflexivity].
    apply String.eqb_eq in E. congruence.
  - destruct (k =? k1)%string eqn:E; simpl.
    + apply String.eqb_eq in E. subst k1.
      destruct (k' =? k)%string eqn:E'; [|reflexivity].
      apply String.eqb_eq in E'. congruence.
    + now rewrite IH.
Qed.

Lemma dict_set_present k v d : lookup k d = Some v -> dict_set k v d = d.
Proof.
  induction d as [|[k' v'] d IH]; simpl; [discriminate|].
  destruct (k =? k')%string eqn:E.
  - apply String.eqb_eq in E. intros [= ->]. now subst.
  - intros Hl. now rewrite IH.
Qed.

Lemma lookup_app_absent k d d' :
  lookup k d = None -> lookup k (d ++ d') = lookup k d'.
Proof.
  induction d as [|[k' v'] d IH]; simpl; [reflexivity|].
  destruct (k =? k')%string; [discriminate|assumption].
Qed.

Lemma lookup_app_present k v d d' :
  lookup k d = Some v -> lookup k (d ++ d') = Some v.
Proof.
  induction d as [|[k' v'] d IH]; simpl; [discriminate|].
  destruct (k =? k')%string; [trivial|assumption].
Qed.

Lemma dict_set_absent k v d :
  lookup k d = None -> dict_set k v d = d ++ [(k, v)].
Proof.
  induction d as [|[k' v'] d IH]; simpl; [reflexivity|].
  destruct (k =? k')%string; [discriminate|].
  intros Hl. now rewrite IH.
Qed.

Lemma dict_set_after_default k v v' d :
  lookup k d = None -> dict_set k v (d ++ [(k, v')]) = dict_set k v d.
Proof.
  induction d as [|[k1 v1] d IH]; simpl.
  - now rewrite String.eqb_refl.
  - destruct (k =? k1)%string; [discriminate|].
    intros Hl. now rewrite IH.
Qed.

Lemma dict_set_twice k v v' d :
  dict_set k v' (dict_set k v d) = dict_set k v' d.
Proof.
  induction d as [|[k1 v1] d IH]; simpl.
  - now rewrite String.eqb_refl.
  - destruct (k =? k1)%string eqn:E; simpl.
    + now rewrite String.eqb_refl.
    + now rewrite E, IH.
Qed.
End Dict_facts.

Lemma lookup_map {A B} (f : A -> B) (k : string) (d : list (string * A)) :
  lookup k (map (fun kv => (fst kv, f (snd kv))) d)
  = option_map f (lookup k d).
Proof.
  induction d as [|[k' x] d IH]; [reflexivity|]. simpl.
  destruct (k =? k')%string; [reflexivity|exact IH].
Qed.

Lemma mem_map {A B} (f : A -> B) (k : string) (d : list (string * A)) :
  mem k (map (fun kv => (fst kv, f (snd kv))) d) = mem k d.
Proof. unfold mem. rewrite lookup_map. now destruct (lookup k d). Qed.

(** [copy.deepcopy] has the stack that it needs, whatever it copies. *)
Definition roomy `{Builtins} : Prop := forall v : value, copy_raises v = None.

Lemma deepcopy_roomy `{Builtins} (v : value) : roomy -> deepcopy v = Ok v.
Proof. intros Hroom. unfold deepcopy. now rewrite Hroom. Qed.

(* ===================================================================== *)
(** * Reading *)
(* ===================================================================== *)

(** ** Reading a file that holds no JSON object *)

Lemma read_absorbed `{Builtins} `{Host} (st : state) (path : option string)
    (e : exn) :
  isfile (disk st) (resolve path) = true ->
  read_json (disk st) (resolve path) = Raise e ->
  read st path = (with_stderr st (stderr st ++ [Traceback e]), Ok tt).
Proof.
  intros Hfile Hjson. unfold read, silent_read_json.
  rewrite Hfile, Hjson. reflexivity.
Qed.

(** C2. When the file at the path is there but is not valid JSON, or
    cannot be read, [read] returns normally, the store, the defaults tree
    and the files are what they were, and one diagnostic (the traceback of
    the error) has been added to the standard error stream. *)
Theorem read_malformed_file_leaves_store `{Builtins} `{Host}
    (st : state) (path : option string) (f : file) :
  lookup (resolve path) (files (disk st)) = Some f ->
  f = FGarbled \/ f = FUnreadable ->
  let st' := fst (read st path) in
  snd (read st path) = Ok tt
  /\ self st' = self st
  /\ defaults st' = defaults st
  /\ disk st' = disk st
  /\ exists e, stderr st' = stderr st ++ [Traceback e].
Proof.
  intros Hf Hbad.
  assert (Hfile : isfile (disk st) (resolve path) = true)
    by (unfold isfile, mem; now rewrite Hf).
  assert (Hjson : exists e, read_json (disk st) (resolve path) = Raise e).
  { unfold read_json. rewrite Hf.
    destruct Hbad as [-> | ->]; eauto. }
  destruct Hjson as [e Hjson]. cbv zeta.
  rewrite (read_absorbed st path e Hfile Hjson). simpl.
  repeat split; eauto.
Qed.

Lemma read_malformed_file_leaves_store_witness :
  let st := boot {| files := [("/c.json", FGarbled)]; locked := [] |} in
  let st' := fst (read st (Some "/c.json")) in
  snd (read st (Some "/c.json")) = Ok tt
  /\ self st' = self st
  /\ defaults st' = defaults st
  /\ disk st' = disk st
  /\ exists e, stderr st' = stderr st ++ [Traceback e].
Proof.
  intro st.
  apply (@read_malformed_file_leaves_store
           Ascii_text.builtins Ascii_text.host st (Some "/c.json") FGarbled).
  - reflexivity.
  - left; reflexivity.
Defined.

(** ** Errors that leave [read] *)

(** C1. [read] does not absorb every error.  The store has just been
    created from the built-in defaults.  (1) The file holds the JSON
    document [[1]]: [_update] calls [items()] on a list and the
    [AttributeError] leaves [read].  (2) The file holds
    [{"units": {"a": {"b": 1}}}]: [_update] descends into the string
    ["metric"] and calls [setdefault] on it, outside the [try]; the
    [AttributeError] leaves [read] too.  Nothing is printed in either
    case. *)
Theorem read_raises_on_valid_json :
  let list_doc := VList [VInt 1] in
  let nested_doc := VDict [("units", VDict [("a", VDict [("b", VInt 1)])])] in
  let run doc :=
    read (boot {| files := [("/c.json", FJson doc)]; locked := [] |})
         (Some "/c.json") in
  snd (run list_doc) = Raise AttributeError
  /\ stderr (fst (run list_doc)) = []
  /\ snd (run nested_doc) = Raise AttributeError
  /\ stderr (fst (run nested_doc)) = [].
Proof. repeat split; reflexivity. Qed.

(** ** What [read] does to the defaults *)

Lemma no_dot_option (name : string) :
  split_on "." name = [name] -> sections name = [] /\ leaf name = name.
Proof. unfold sections, leaf. intros ->. split; reflexivity. Qed.

(** C10. The file holds the document [{name: {}}] and [name] has no
    default; the store is an [AttrDict] none of whose keys hides
    [_update] or [setdefault].  [read] returns normally; before it
    [get_default(name)] raised [KeyError], afterwards it returns the
    empty tree, and a store created afterwards has [name], with the empty
    tree as its value. *)
Theorem read_extends_defaults `{Builtins} `{Host}
    (st : state) (path : option string) (name : string)
    (s : list (string * node)) (d : list (string * value)) :
  roomy ->
  self st = NDict true s ->
  mem "_update" s = false ->
  mem "setdefault" s = false ->
  defaults st = VDict d ->
  lookup name d = None ->
  split_on "." name = [name] ->
  lookup (resolve path) (files (disk st))
  = Some (FJson (VDict [(name, VDict [])])) ->
  let st' := fst (read st path) in
  snd (read st path) = Ok tt
  /\ get_default st name = Raise KeyError
  /\ get_default st' name = Ok (VDict [])
  /\ defaults st' = VDict (d ++ [(name, VDict [])])
  /\ get (fst (__init__ st')) name = Ok (VDict []).
Proof.
  intros Hroom Hs Hupd Hsd Hd Hno Hdot Hfile.
  destruct (no_dot_option name Hdot) as [Hsec Hleaf].
  assert (Hread : snd (read st path) = Ok tt
                  /\ defaults (fst (read st path))
                     = VDict (d ++ [(name, VDict [])])).
  { unfold read, silent_read_json, isfile, mem, read_json.
    rewrite Hfile. cbv beta iota. simpl negb. cbv iota.
    unfold hides. cbn [self with_stderr]. rewrite Hs, Hupd.
    simpl. unfold root_setdefault. cbn [sub w_store world_of].
    rewrite Hs. cbn [attr_setdefault bind]. rewrite Hsd. simpl.
    destruct (lookup name s) as [n|]; simpl;
      unfold defaults_setdefault; simpl; rewrite Hd; simpl; rewrite Hno;
      simpl; rewrite Hupd; split; reflexivity. }
  destruct Hread as [Hok Hdef]. cbv zeta.
  split; [exact Hok|].
  split; [unfold get_default; rewrite Hsec, Hleaf, Hd; simpl; now rewrite Hno|].
  split.
  { unfold get_default. rewrite Hsec, Hleaf, Hdef. simpl.
    rewrite lookup_app_absent by assumption. simpl. rewrite String.eqb_refl.
    now apply deepcopy_roomy. }
  split; [exact Hdef|].
  unfold __init__, get. rewrite Hdef, deepcopy_roomy by assumption.
  simpl. rewrite Hsec, Hleaf. simpl.
  rewrite lookup_map, lookup_app_absent by assumption. simpl.
  rewrite String.eqb_refl. simpl. unfold deepcopy_node. simpl.
  now apply deepcopy_roomy.
Qed.

Lemma read_extends_defaults_witness :
  let st := boot {| files := [("/c.json", FJson (VDict [("foo", VDict [])]))];
                    locked := [] |} in
  let st' := fst (read st (Some "/c.json")) in
  snd (read st (Some "/c.json")) = Ok tt
  /\ get_default st "foo" = Raise KeyError
  /\ get_default st' "foo" = Ok (VDict [])
  /\ defaults st' = VDict (items_or_nil DEFAULTS ++ [("foo", VDict [])])
  /\ get (fst (__init__ st')) "foo" = Ok (VDict []).
Proof.
  intro st.
  apply (@read_extends_defaults builtins host st (Some "/c.json") "foo"
           (map (fun kv => (fst kv, embed (snd kv))) (items_or_nil DEFAULTS))
           (items_or_nil DEFAULTS));
    try reflexivity.
  intro v; reflexivity.
Defined.

(* ===================================================================== *)
(** * Coercion *)
(* ===================================================================== *)

(** The list comprehension of [_coerce]. *)
Fixpoint coerce_items `{Builtins} (self : node) (ref : value)
    (xs : list value) : result (list value) :=
  match xs with
  | [] => Ok []
  | x :: rest =>
      ref0 <- getitem0 ref ;;
      x' <- (if hides self "_coerce" then Raise TypeError
             else _coerce self x ref0) ;;
      rest' <- coerce_items self ref rest ;;
      Ok (x' :: rest')
  end.

Lemma _coerce_list `{Builtins} (self : node) (xs : list value) (ref : value) :
  _coerce self (VList xs) ref
  = if truthy ref then (xs' <- coerce_items self ref xs ;; Ok (VList xs'))
    else construct ref (VList xs).
Proof.
  simpl. destruct (truthy ref); [|reflexivity]. f_equal.
  induction xs as [|x rest IH]; [reflexivity|].
  simpl. now rewrite IH.
Qed.

Lemma _coerce_other `{Builtins} (self : node) (v ref : value) :
  is_list v = false -> _coerce self v ref = construct ref v.
Proof. destruct v; try reflexivity. discriminate. Qed.

(** [_coerce] looks at the store for its own name only. *)
Lemma _coerce_self `{Builtins} (s1 s2 : node) (v : value) :
  hides s1 "_coerce" = hides s2 "_coerce" ->
  forall ref, _coerce s1 v ref = _coerce s2 v ref.
Proof.
  intros Hh.
  induction v as [| | | | |xs IH|d _] using value_nested_ind; intros ref;
    try reflexivity.
  rewrite !_coerce_list. destruct (truthy ref); [|reflexivity].
  f_equal. induction IH as [|x rest Hx _ IHrest]; [reflexivity|].
  simpl. rewrite Hh, IHrest.
  destruct (getitem0 ref) as [ref0|e]; [|reflexivity]. simpl.
  now rewrite Hx.
Qed.

Lemma construct_again `{Builtins} (v ref v' : value) :
  is_list ref = false -> construct ref v = Ok v' ->
  is_list v' = false /\ construct ref v' = Ok v'.
Proof.
  destruct ref as [|b|n|x|s|l|d]; try discriminate; intros _; simpl.
  - intros [= <-]. split; [reflexivity|]. simpl. now destruct (truthy v).
  - destruct v as [|b|m|x|s|l|d]; try discriminate.
    + intros [= <-]. now split.
    + intros [= <-]. now split.
    + destruct (int_of_float x); [|discriminate]. intros [= <-]. now split.
    + destruct (int_of_str s); [|discriminate]. intros [= <-]. now split.
  - destruct v as [|b|m|y|s|l|d]; try discriminate.
    + destruct (float_of_int (int_of_bool b)); [|discriminate].
      intros [= <-]. now split.
    + destruct (float_of_int m); [|discriminate]. intros [= <-]. now split.
    + intros [= <-]. now split.
    + destruct (float_of_str s); [|discriminate]. intros [= <-]. now split.
  - destruct v; intros [= <-]; now split.
  - destruct v as [|b|m|x|s|l|d']; try discriminate.
    + destruct (chars_of s); [|discriminate]. intros [= <-]. now split.
    + destruct (dict_of_list l); [|discriminate]. simpl.
      intros [= <-]. now split.
    + intros [= <-]. now split.
Qed.

Lemma getitem0_of_other `{Builtins} (ref ref0 : value) :
  is_list ref = false -> getitem0 ref = Ok ref0 -> is_list ref0 = false.
Proof.
  destruct ref as [| | | |s|l|d]; try discriminate. simpl.
  destruct (chars_of s); [discriminate|]. now intros _ [= <-].
Qed.

(** X6. Coercion settles: for a default that is no list, what
    [_coerce(value, ref)] returns is coerced to itself by
    [_coerce(., ref)].  (For a default that is a list it is not so:
    [_coerce("12", [1])] is [["1", "2"]], which is coerced to [[1, 2]].) *)
Theorem coercion_settles `{Builtins} (self : node) (v : value) :
  forall ref v' : value,
    is_list ref = false ->
    _coerce self v ref = Ok v' ->
    _coerce self v' ref = Ok v'.
Proof.
  induction v as [| | | | |xs IH|d _] using value_nested_ind;
    intros ref v' Href;
    try (rewrite _coerce_other by reflexivity; intros Hc;
         destruct (construct_again _ _ _ Href Hc) as [Hl Hc'];
         now rewrite _coerce_other by assumption).
  rewrite _coerce_list. destruct (truthy ref) eqn:Et.
  - destruct (coerce_items self ref xs) as [xs'|e] eqn:Ec; [|discriminate].
    simpl. intros [= <-]. rewrite _coerce_list, Et.
    enough (coerce_items self ref xs' = Ok xs') as -> by reflexivity.
    revert xs' Ec. induction IH as [|x rest Hx _ IHrest]; intros xs'; simpl.
    + now intros [= <-].
    + destruct (getitem0 ref) as [ref0|e] eqn:E0; [|discriminate]. simpl.
      destruct (hides self "_coerce") eqn:Eh; [discriminate|].
      destruct (_coerce self x ref0) as [x'|e] eqn:Ex; [|discriminate]. simpl.
      destruct (coerce_items self ref rest) as [rest'|e] eqn:Er;
        [|discriminate].
      simpl. intros [= <-]. simpl. rewrite E0, Eh. simpl.
      rewrite (Hx ref0 x' (getitem0_of_other _ _ Href E0) Ex). simpl.
      now rewrite (IHrest rest' eq_refl).
  - intros Hc. destruct (construct_again _ _ _ Href Hc) as [Hl Hc'].
    now rewrite _coerce_other by assumption.
Qed.

Lemma coercion_settles_witness :
  let conf := self (boot {| files := []; locked := [] |}) in
  _coerce conf (VList [VInt 1; VBool true]) (VStr "metric")
  = Ok (VList [VStr "1"; VStr "True"])
  /\ _coerce conf (VList [VStr "1"; VStr "True"]) (VStr "metric")
     = Ok (VList [VStr "1"; VStr "True"])
  /\ _coerce conf (VStr "12") (VList [VInt 1])
     = Ok (VList [VStr "1"; VStr "2"])
  /\ _coerce conf (VList [VStr "1"; VStr "2"]) (VList [VInt 1])
     = Ok (VList [VInt 1; VInt 2]).
Proof.
  intro conf.
  split; [reflexivity|]. split; [|split; reflexivity].
  apply (coercion_settles conf (VList [VInt 1; VBool true]) (VStr "metric"));
    reflexivity.
Defined.

(* ===================================================================== *)
(** * Places in a tree *)
(* ===================================================================== *)

Lemma mem_dict_set_present (V : Type) (k name : string) (v w : V)
    (d : list (string * V)) :
  lookup k d = Some w -> mem name (dict_set k v d) = mem name d.
Proof.
  intros Hk. unfold mem.
  destruct (String.eqb_spec name k) as [->|Hne].
  - now rewrite lookup_dict_set_same, Hk.
  - now rewrite lookup_dict_set_other by congruence.
Qed.

Lemma sub_app (n : node) (p q : list string) :
  sub n (p ++ q) = match sub n p with
                   | Some r => sub r q
                   | None => None
                   end.
Proof.
  revert n. induction p as [|k p IH]; intros n; [reflexivity|]. simpl.
  destruct n as [| | | | | |a items]; try reflexivity.
  destruct (lookup k items); [apply IH|reflexivity].
Qed.

Lemma sub_plug (n : node) (p : list string) (r x : node) :
  sub n p = Some r -> sub (plug n p x) p = Some x.
Proof.
  revert n. induction p as [|k p IH]; intros n; [reflexivity|]. simpl.
  destruct n as [| | | | | |a items]; try discriminate.
  destruct (lookup k items) as [c|] eqn:Ek; [|discriminate].
  intros Hc. simpl. rewrite lookup_dict_set_same. now apply IH.
Qed.

Lemma plug_same (n : node) (p : list string) (r : node) :
  sub n p = Some r -> plug n p r = n.
Proof.
  revert n. induction p as [|k p IH]; intros n; simpl.
  - now intros [= ->].
  - destruct n as [| | | | | |a items]; try discriminate.
    destruct (lookup k items) as [c|] eqn:Ek; [|discriminate].
    intros Hc. rewrite (IH c Hc). now rewrite dict_set_present.
Qed.

Lemma plug_plug (n : node) (p : list string) (r x y : node) :
  sub n p = Some r -> plug (plug n p x) p y = plug n p y.
Proof.
  revert n. induction p as [|k p IH]; intros n; [reflexivity|]. simpl.
  destruct n as [| | | | | |a items]; try discriminate.
  destruct (lookup k items) as [c|] eqn:Ek; [|discriminate].
  intros Hc. simpl. rewrite lookup_dict_set_same, dict_set_twice.
  now rewrite (IH c Hc).
Qed.

Lemma plug_app (n : node) (p q : list string) (r x : node) :
  sub n p = Some r -> plug n (p ++ q) x = plug n p (plug r q x).
Proof.
  revert n. induction p as [|k p IH]; intros n; simpl.
  - now intros [= ->].
  - destruct n as [| | | | | |a items]; try discriminate.
    destruct (lookup k items) as [c|] eqn:Ek; [|discriminate].
    intros Hc. now rewrite (IH c Hc).
Qed.

(** A change below the top leaves the keys of the top as they are. *)
Lemma hides_plug (n : node) (p : list string) (x : node) (name : string) :
  p <> [] -> hides (plug n p x) name = hides n name.
Proof.
  destruct p as [|k p]; [congruence|]. intros _. simpl.
  destruct n as [| | | | | |a items]; try reflexivity.
  destruct (lookup k items) as [c|] eqn:Ek; [|reflexivity].
  simpl. destruct a; [|reflexivity].
  now apply mem_dict_set_present with c.
Qed.

Lemma vsub_app (v : value) (p q : list string) :
  vsub v (p ++ q) = match vsub v p with
                    | Some r => vsub r q
                    | None => None
                    end.
Proof.
  revert v. induction p as [|k p IH]; intros v; [reflexivity|]. simpl.
  destruct v as [| | | | | |items]; try reflexivity.
  destruct (lookup k items); [apply IH|reflexivity].
Qed.

Lemma vsub_vplug (v : value) (p : list string) (r x : value) :
  vsub v p = Some r -> vsub (vplug v p x) p = Some x.
Proof.
  revert v. induction p as [|k p IH]; intros v; [reflexivity|]. simpl.
  destruct v as [| | | | | |items]; try discriminate.
  destruct (lookup k items) as [c|] eqn:Ek; [|discriminate].
  intros Hc. simpl. rewrite lookup_dict_set_same. now apply IH.
Qed.

Lemma vplug_same (v : value) (p : list string) (r : value) :
  vsub v p = Some r -> vplug v p r = v.
Proof.
  revert v. induction p as [|k p IH]; intros v; simpl.
  - now intros [= ->].
  - destruct v as [| | | | | |items]; try discriminate.
    destruct (lookup k items) as [c|] eqn:Ek; [|discriminate].
    intros Hc. rewrite (IH c Hc). now rewrite dict_set_present.
Qed.

Lemma vplug_vplug (v : value) (p : list string) (r x y : value) :
  vsub v p = Some r -> vplug (vplug v p x) p y = vplug v p y.
Proof.
  revert v. induction p as [|k p IH]; intros v; [reflexivity|]. simpl.
  destruct v as [| | | | | |items]; try discriminate.
  destruct (lookup k items) as [c|] eqn:Ek; [|discriminate].
  intros Hc. simpl. rewrite lookup_dict_set_same, dict_set_twice.
  now rewrite (IH c Hc).
Qed.

Lemma vplug_app (v : value) (p q : list string) (r x : value) :
  vsub v p = Some r -> vplug v (p ++ q) x = vplug v p (vplug r q x).
Proof.
  revert v. induction p as [|k p IH]; intros v; simpl.
  - now intros [= ->].
  - destruct v as [| | | | | |items]; try discriminate.
    destruct (lookup k items) as [c|] eqn:Ek; [|discriminate].
    intros Hc. now rewrite (IH c Hc).
Qed.

(** [get] and [get_default] read the place that the sections and the
    name of the option lead to. *)
Lemma node_descend_sub (root : node) (secs : list string) :
  node_descend root secs
  = match sub root secs with
    | Some n => Ok n
    | None => node_descend root secs
    end.
Proof.
  revert root. induction secs as [|k secs IH]; intros root; [reflexivity|].
  simpl. destruct root as [| | | | | |a items]; try reflexivity. simpl.
  destruct (lookup k items) as [c|]; [|reflexivity]. simpl. apply IH.
Qed.

Lemma node_descend_found (root : node) (secs : list string) (n : node) :
  node_descend root secs = Ok n <-> sub root secs = Some n.
Proof.
  revert root. induction secs as [|k secs IH]; intros root; simpl.
  - split; now intros [= ->].
  - destruct root as [| | | | | |a items];
      try (split; discriminate). simpl.
    destruct (lookup k items) as [c|]; [|split; discriminate]. simpl.
    apply IH.
Qed.

Lemma descend_found (root : value) (secs : list string) (v : value) :
  descend root secs = Ok v <-> vsub root secs = Some v.
Proof.
  revert root. induction secs as [|k secs IH]; intros root; simpl.
  - split; now intros [= ->].
  - destruct root as [| | | | | |items];
      try (split; discriminate). simpl.
    destruct (lookup k items) as [c|]; [|split; discriminate]. simpl.
    apply IH.
Qed.

(** The copy of a JSON value that is in the store is the value. *)
Lemma copy_tree_embed (v : value) : copy_tree (embed v) = Ok v.
Proof.
  induction v as [| | | | |l _|d IH] using value_nested_ind;
    try reflexivity.
  simpl.
  enough (E : (fix each (items : list (string * node))
                 : result (list (string * value)) :=
                 match items with
                 | [] => Ok []
                 | (k, x) :: rest =>
                     x' <- copy_tree x ;;
                     rest' <- each rest ;;
                     Ok ((k, x') :: rest')
                 end) (map (fun kv => (fst kv, embed (snd kv))) d) = Ok d)
    by now rewrite E.
  induction IH as [|[k x] d Hx _ IHd]; [reflexivity|].
  simpl in *. now rewrite Hx, IHd.
Qed.

Lemma forget_embed (v : value) : forget (embed v) = v.
Proof.
  induction v as [| | | | |l _|d IH] using value_nested_ind;
    try reflexivity.
  simpl. f_equal. induction IH as [|[k x] d Hx _ IHd]; [reflexivity|].
  simpl in *. now rewrite Hx, IHd.
Qed.

(* ===================================================================== *)
(** * Options: [set] and [get] *)
(* ===================================================================== *)

Lemma with_self_same (st : state) : with_self st (self st) = st.
Proof. destruct st; reflexivity. Qed.

Lemma split_on_nonempty (c : ascii) (s : string) : split_on c s <> [].
Proof.
  induction s as [|a s IH]; simpl; [discriminate|].
  destruct (Ascii.eqb a c); [discriminate|].
  destruct (split_on c s); discriminate.
Qed.

(** The keys that lead to an option. *)
Lemma sections_leaf (option : string) :
  sections option ++ [leaf option] = split_on "." option.
Proof.
  unfold sections, leaf. symmetry.
  apply app_removelast_last, split_on_nonempty.
Qed.

Lemma get_sub `{Builtins} (st : state) (option : string) (n : node) :
  sub (self st) (split_on "." option) = Some n ->
  get st option = deepcopy_node n.
Proof.
  rewrite <- sections_leaf, sub_app. unfold get.
  destruct (sub (self st) (sections option)) as [root|] eqn:Er;
    [|discriminate].
  apply node_descend_found in Er. rewrite Er. simpl.
  destruct root as [| | | | | |a items]; try discriminate. simpl.
  destruct (lookup (leaf option) items); [|discriminate].
  now intros [= ->].
Qed.

Lemma get_found `{Builtins} (st : state) (option : string) (v : value) :
  get st option = Ok v ->
  exists n, sub (self st) (split_on "." option) = Some n
            /\ deepcopy_node n = Ok v.
Proof.
  rewrite <- sections_leaf, sub_app. unfold get.
  destruct (node_descend (self st) (sections option)) as [root|e] eqn:Er;
    [|discriminate].
  apply node_descend_found in Er. rewrite Er. simpl.
  destruct root as [| | | | | |a items]; try discriminate. simpl.
  destruct (lookup (leaf option) items) as [n|]; [|discriminate].
  simpl. eauto.
Qed.

Lemma get_default_vsub `{Builtins} (st : state) (option : string) (v : value) :
  vsub (defaults st) (split_on "." option) = Some v ->
  get_default st option = deepcopy v.
Proof.
  rewrite <- sections_leaf, vsub_app. unfold get_default.
  destruct (vsub (defaults st) (sections option)) as [root|] eqn:Er;
    [|discriminate].
  apply descend_found in Er. rewrite Er. simpl.
  destruct root as [| | | | | |items]; try discriminate. simpl.
  destruct (lookup (leaf option) items); [|discriminate].
  now intros [= ->].
Qed.

(** When the walk along the sections returns, the body has run in a
    dictionary that is then at the end of the sections. *)
Lemma walk_returns {A} (create : bool) (body : node -> node * result A)
    (secs : list string) :
  forall (root root' : node) (a : A),
    walk create secs root body = (root', Ok a) ->
    exists cont cont',
      body cont = (cont', Ok a) /\ sub root' secs = Some cont'.
Proof.
  induction secs as [|section rest IH]; intros root root' a; simpl.
  - intros Hb. exists root, root'. now split.
  - destruct (if create then node_in (VStr section) root else Ok true)
      as [present|e]; [|discriminate].
    destruct (if present then Ok root
              else node_setitem root section (NDict true []))
      as [root1|e]; [|discriminate].
    destruct (node_getitem root1 section) as [sub0|e] eqn:Eg; [|discriminate].
    destruct (walk create rest sub0 body) as [sub' r] eqn:Ew.
    intros [= <- ->].
    destruct (IH _ _ _ Ew) as (cont & cont' & Hb & Hs).
    exists cont, cont'. split; [exact Hb|].
    destruct root1 as [| | | | | |attr items]; try discriminate.
    simpl. now rewrite lookup_dict_set_same.
Qed.

(** A walk that creates nothing: the body runs in the dictionary at the
    end of the sections, and what it makes of the dictionary is put
    there. *)
Lemma walk_found {A} (body : node -> node * result A) (secs : list string) :
  forall root cont,
    sub root secs = Some cont ->
    walk false secs root body
    = (plug root secs (fst (body cont)), snd (body cont)).
Proof.
  induction secs as [|section rest IH]; intros root cont; simpl.
  - intros [= ->]. now destruct (body cont).
  - destruct root as [| | | | | |attr items]; try discriminate.
    destruct (lookup section items) as [c|] eqn:Ec; [|discriminate].
    intros Hc. simpl. rewrite Ec, (IH c cont Hc). reflexivity.
Qed.

Lemma split_option_found {A} (st : state) (option : string)
    (body : node -> string -> node * result A) (cont : node) :
  hides (self st) "_split_option" = false ->
  sub (self st) (sections option) = Some cont ->
  _split_option st option false body
  = (with_self st (plug (self st) (sections option)
                        (fst (body cont (leaf option)))),
     snd (body cont (leaf option))).
Proof.
  intros Hh Hc. unfold _split_option. rewrite Hh.
  now rewrite walk_found with (cont := cont) by assumption.
Qed.

(** The claim C5 as it is written fails for an option below a value that
    is no dictionary: [set("units.x", 1)] on the store that has just been
    created raises [TypeError]; and for the option ["get"]:
    [set("get", 5)] returns, and [get("get")] then calls [5]. *)
Lemma set_then_get_fails :
  let conf := boot {| files := []; locked := [] |} in
  let hidden := fst (public conf "set" (set conf "get" (VInt 5))) in
  snd (public conf "set" (set conf "units.x" (VInt 1))) = Raise TypeError
  /\ snd (public conf "set" (set conf "get" (VInt 5))) = Ok tt
  /\ snd (public hidden "get" (hidden, get hidden "get")) = Raise TypeError.
Proof. repeat split; reflexivity. Qed.

(** C5, amended. When [conf.set(option, v)] has returned normally,
    [conf.get(option)] returns [v], unless [get] is now a key of the
    store, which the call of [set] has made one when the first name of
    the option is ["get"]: the call of [get] then raises [TypeError]. *)
Theorem set_then_get `{Builtins} (st st' : state) (option : string)
    (v : value) :
  public st "set" (set st option v) = (st', Ok tt) ->
  snd (public st' "get" (st', get st' option))
  = if hides (self st') "get" then Raise TypeError else Ok v.
Proof.
  unfold public. destruct (hides (self st) "set"); [discriminate|].
  unfold set, _split_option.
  destruct (hides (self st) "_split_option"); [discriminate|].
  destruct (walk true (sections option) (self st) _) as [s' r] eqn:Ew.
  intros [= <- ->].
  apply walk_returns in Ew as (cont & cont' & Hb & Hs).
  cbn [self with_self].
  destruct (hides s' "get"); [reflexivity|]. cbn [snd].
  unfold deepcopy in Hb.
  destruct (copy_raises v) eqn:Ev; [discriminate|]. cbn [bind] in Hb.
  destruct cont as [| | | | | |attr items]; try discriminate.
  simpl in Hb. injection Hb as <-.
  rewrite (get_sub (with_self st s') option (embed v)).
  - unfold deepcopy_node, deepcopy. now rewrite copy_tree_embed; simpl; rewrite Ev.
  - rewrite <- sections_leaf, sub_app. cbn [self with_self]. rewrite Hs.
    simpl. now rewrite lookup_dict_set_same.
Qed.

Lemma set_then_get_witness :
  let conf := boot {| files := []; locked := [] |} in
  let v := VDict [("stops", VList [VInt 1; VInt 2])] in
  let st' := fst (public conf "set" (set conf "favorites.home" v)) in
  public conf "set" (set conf "favorites.home" v) = (st', Ok tt)
  /\ snd (public st' "get" (st', get st' "favorites.home")) = Ok v.
Proof.
  intros conf v st'. split; [reflexivity|].
  apply (set_then_get conf st' "favorites.home" v). reflexivity.
Defined.

(* ===================================================================== *)
(** * Sequences: [add], [remove], [contains] *)
(* ===================================================================== *)

(** ** Equality of values *)

Lemma distinct_lookup (V : Type) (d : list (string * V)) (k : string) (v : V) :
  distinct (keys d) = true -> In (k, v) d -> lookup k d = Some v.
Proof.
  induction d as [|[k1 v1] d IH]; simpl; [contradiction|].
  intros Hd Hin. apply andb_prop in Hd as [Hfresh Hd].
  destruct Hin as [[= -> ->]|Hin].
  - now rewrite String.eqb_refl.
  - destruct (String.eqb_spec k k1) as [->|Hne]; [|now apply IH].
    exfalso. apply negb_true_iff in Hfresh.
    assert (Hex : existsb (String.eqb k1) (keys d) = true).
    { apply existsb_exists. exists k1. split; [|apply String.eqb_refl].
      unfold keys. change k1 with (fst (k1, v)). now apply in_map. }
    congruence.
Qed.

Lemma well_formed_list (l : list value) :
  well_formed (VList l) = forallb well_formed l.
Proof. induction l as [|x l IH]; simpl; [reflexivity|]. now rewrite <- IH. Qed.

Lemma well_formed_dict (d : list (string * value)) :
  well_formed (VDict d)
  = distinct (keys d) && forallb (fun kv => well_formed (snd kv)) d.
Proof.
  simpl. f_equal. induction d as [|[k x] d IH]; simpl; [reflexivity|].
  now rewrite <- IH.
Qed.

Lemma has_nan_list (l : list value) :
  has_nan (VList l) = existsb has_nan l.
Proof. induction l as [|x l IH]; simpl; [reflexivity|]. now rewrite <- IH. Qed.

Lemma has_nan_dict (d : list (string * value)) :
  has_nan (VDict d) = existsb (fun kv => has_nan (snd kv)) d.
Proof.
  induction d as [|[k x] d IH]; simpl; [reflexivity|]. now rewrite <- IH.
Qed.

Lemma py_eq_list (xs ys : list value) :
  py_eq (VList xs) (VList ys)
  = match xs, ys with
    | [], [] => true
    | x :: xs', y :: ys' => py_eq x y && py_eq (VList xs') (VList ys')
    | _, _ => false
    end.
Proof. destruct xs, ys; reflexivity. Qed.

(** The second conjunct of the comparison of two dictionaries. *)
Definition submap (xs ys : list (string * value)) : bool :=
  forallb (fun kv => match lookup (fst kv) ys with
                     | Some y => py_eq (snd kv) y
                     | None => false
                     end) xs.

Lemma py_eq_dict (xs ys : list (string * value)) :
  py_eq (VDict xs) (VDict ys)
  = (List.length xs =? List.length ys)%nat && submap xs ys.
Proof.
  simpl. f_equal. unfold submap.
  induction xs as [|[k x] xs IH]; simpl; [reflexivity|].
  destruct (lookup k ys); [|reflexivity]. now rewrite <- IH.
Qed.

Lemma SFeqb_refl (x : spec_float) : x <> S754_nan -> SFeqb x x = true.
Proof.
  unfold SFeqb, SFcompare. destruct x as [s|s| |s m e]; try congruence;
    intros _; try (now destruct s).
  rewrite Z.compare_refl.
  destruct s; now rewrite ?Pos.compare_cont_refl.
Qed.

(** A value without [nan] is equal to itself. *)
Lemma py_eq_refl (v : value) :
  well_formed v = true -> has_nan v = false -> py_eq v v = true.
Proof.
  induction v as [| b | n | x | s | l IH | d IH] using value_nested_ind;
    intros Hwf Hnan; simpl; auto.
  - apply Bool.eqb_reflx.
  - apply Z.eqb_refl.
  - apply SFeqb_refl. intros ->. discriminate.
  - apply String.eqb_refl.
  - rewrite well_formed_list in Hwf. rewrite has_nan_list in Hnan.
    change (py_eq (VList l) (VList l) = true).
    induction IH as [|x l Hx _ IHl]; [reflexivity|].
    simpl in Hwf, Hnan. apply andb_prop in Hwf as [Hwx Hwl].
    apply orb_false_elim in Hnan as [Hnx Hnl].
    rewrite py_eq_list, Hx by assumption. now apply IHl.
  - change (py_eq (VDict d) (VDict d) = true).
    rewrite well_formed_dict in Hwf. apply andb_prop in Hwf as [Hkeys Hvals].
    rewrite has_nan_dict in Hnan.
    rewrite py_eq_dict, Nat.eqb_refl. simpl.
    assert (Hall : forall xs, incl xs d -> submap xs d = true).
    { induction xs as [|[k x] xs IHxs]; intros Hincl; [reflexivity|].
      simpl.
      assert (Hin : In (k, x) d) by (apply Hincl; now left).
      rewrite (distinct_lookup _ d k x Hkeys Hin).
      rewrite Forall_forall in IH. rewrite forallb_forall in Hvals.
      assert (Hnx : has_nan x = false).
      { destruct (has_nan x) eqn:E; [|reflexivity].
        assert (existsb (fun kv => has_nan (snd kv)) d = true)
          by (apply existsb_exists; exists (k, x); now split).
        congruence. }
      pose proof (IH (k, x) Hin (Hvals (k, x) Hin) Hnx) as Hx. simpl in Hx.
      rewrite Hx. simpl.
      apply IHxs. intros kv Hkv. apply Hincl. now right. }
    apply Hall, incl_refl.
Qed.

(** ** The three methods on an option whose value is a list *)

(** What [l.remove(x)] leaves when [x] is in [l]. *)
Fixpoint without_first (x : value) (l : list value) : list value :=
  match l with
  | [] => []
  | e :: l' => if py_eq e x then l' else e :: without_first x l'
  end.

Lemma remove_first_found (x : value) (l : list value) :
  existsb (fun e => py_eq e x) l = true ->
  remove_first x l = Ok (without_first x l).
Proof.
  induction l as [|e l IH]; simpl; [discriminate|].
  destruct (py_eq e x); [reflexivity|]. simpl. intros H.
  now rewrite IH.
Qed.

Lemma copy_tree_list (n : node) (l : list value) :
  copy_tree n = Ok (VList l) -> n = NList l.
Proof.
  destruct n as [| | | | |l'|a items]; try discriminate; simpl.
  - now intros [= ->].
  - destruct (if a then copy_hook items else None); [discriminate|].
    match goal with |- context [bind ?c _] => destruct c end; discriminate.
Qed.

(** The option has the list [l] as its value: the dictionary at the end
    of its sections, and the place of the list. *)
Lemma get_list `{Builtins} (st : state) (option : string) (l : list value) :
  get st option = Ok (VList l) ->
  exists attr items,
    sub (self st) (sections option) = Some (NDict attr items)
    /\ lookup (leaf option) items = Some (NList l).
Proof.
  intros Hget. apply get_found in Hget as (n & Hn & Hcopy).
  unfold deepcopy_node in Hcopy.
  destruct (copy_tree n) as [v|e] eqn:Ec; [|discriminate].
  simpl in Hcopy. unfold deepcopy in Hcopy.
  destruct (copy_raises v); [discriminate|]. injection Hcopy as ->.
  apply copy_tree_list in Ec. subst n.
  rewrite <- sections_leaf, sub_app in Hn.
  destruct (sub (self st) (sections option)) as [root|]; [|discriminate].
  destruct root as [| | | | | |attr items]; try discriminate.
  simpl in Hn. exists attr, items. split; [reflexivity|].
  now destruct (lookup (leaf option) items) as [n|]; [injection Hn as ->|].
Qed.

Lemma get_placed `{Builtins} (st : state) (option : string) (attr : bool)
    (items : list (string * node)) (cont' : node) (l : list value) :
  roomy ->
  sub (self st) (sections option) = Some (NDict attr items) ->
  sub cont' [leaf option] = Some (NList l) ->
  get (with_self st (plug (self st) (sections option) cont')) option
  = Ok (VList l).
Proof.
  intros Hroom Hs Hl. rewrite get_sub with (n := NList l).
  - unfold deepcopy_node. simpl. now apply deepcopy_roomy.
  - rewrite <- sections_leaf, sub_app. cbn [self with_self].
    now rewrite (sub_plug _ _ _ _ Hs).
Qed.

Lemma add_list `{Builtins} (st : state) (option : string) (x : value)
    (l : list value) :
  roomy ->
  hides (self st) "_split_option" = false ->
  has_nan x = false ->
  get st option = Ok (VList l) ->
  let l' := if existsb (fun e => py_eq e x) l then l else l ++ [x] in
  snd (add st option x) = Ok tt
  /\ get (fst (add st option x)) option = Ok (VList l')
  /\ hides (self (fst (add st option x))) "_split_option" = false
  /\ (existsb (fun e => py_eq e x) l = true -> fst (add st option x) = st).
Proof.
  intros Hroom Hh Hnan Hget l'.
  destruct (get_list _ _ _ Hget) as (attr & items & Hs & Hl).
  unfold add. rewrite split_option_found with (cont := NDict attr items)
    by assumption.
  cbn [node_getitem bind]. rewrite Hl. cbn [bind].
  unfold node_in. cbn [forget py_in]. rewrite Hnan. subst l'.
  destruct (existsb (fun e => py_eq e x) l) eqn:Ex; cbn [fst snd].
  - rewrite (plug_same _ _ _ Hs), with_self_same. repeat split; auto.
  - cbn [attr_of_list bind]. rewrite deepcopy_roomy by assumption.
    cbn [bind fst snd put_back]. split; [reflexivity|].
    split; [|split; [|discriminate]].
    + apply get_placed with attr items; try assumption.
      simpl. now rewrite lookup_dict_set_same.
    + cbn [self with_self].
      destruct (sections option) as [|k p] eqn:Ep.
      * simpl in Hs |- *. injection Hs as Hs. rewrite Hs in Hh.
        simpl in Hh |- *. destruct attr; [|reflexivity].
        now rewrite (mem_dict_set_present _ _ _ _ _ _ Hl).
      * now rewrite hides_plug by discriminate.
Qed.

Lemma remove_list `{Builtins} (st : state) (option : string) (x : value)
    (l : list value) :
  roomy ->
  hides (self st) "_split_option" = false ->
  has_nan x = false ->
  get st option = Ok (VList l) ->
  let l' := if existsb (fun e => py_eq e x) l then without_first x l else l in
  snd (remove st option x) = Ok tt
  /\ get (fst (remove st option x)) option = Ok (VList l')
  /\ hides (self (fst (remove st option x))) "_split_option" = false.
Proof.
  intros Hroom Hh Hnan Hget l'.
  destruct (get_list _ _ _ Hget) as (attr & items & Hs & Hl).
  unfold remove. rewrite split_option_found with (cont := NDict attr items)
    by assumption.
  cbn [node_getitem bind]. rewrite Hl. cbn [bind].
  unfold node_in. cbn [forget py_in]. rewrite Hnan. subst l'.
  destruct (existsb (fun e => py_eq e x) l) eqn:Ex; cbn [fst snd].
  - cbn [attr_of_list bind]. rewrite (remove_first_found x l Ex).
    cbn [bind fst snd put_back]. split; [reflexivity|]. split.
    + apply get_placed with attr items; try assumption.
      simpl. now rewrite lookup_dict_set_same.
    + cbn [self with_self].
      destruct (sections option) as [|k p] eqn:Ep.
      * simpl in Hs |- *. injection Hs as Hs. rewrite Hs in Hh.
        simpl in Hh |- *. destruct attr; [|reflexivity].
        now rewrite (mem_dict_set_present _ _ _ _ _ _ Hl).
      * now rewrite hides_plug by discriminate.
  - rewrite (plug_same _ _ _ Hs), with_self_same. repeat split; auto.
Qed.

Lemma contains_list `{Builtins} (st : state) (option : string) (x : value)
    (l : list value) :
  hides (self st) "_split_option" = false ->
  has_nan x = false ->
  get st option = Ok (VList l) ->
  snd (contains st option x) = Ok (existsb (fun e => py_eq e x) l).
Proof.
  intros Hh Hnan Hget.
  destruct (get_list _ _ _ Hget) as (attr & items & Hs & Hl).
  unfold contains. rewrite split_option_found with (cont := NDict attr items)
    by assumption.
  cbn [node_getitem bind snd]. rewrite Hl. cbn [bind].
  unfold node_in. cbn [forget py_in]. now rewrite Hnan.
Qed.

Lemma occurrences_exists (x : value) (l : list value) :
  existsb (fun e => py_eq e x) l = negb (occurrences x l =? 0)%nat.
Proof.
  unfold occurrences. induction l as [|e l IH]; simpl; [reflexivity|].
  destruct (py_eq e x); simpl; [reflexivity|exact IH].
Qed.

Lemma occurrences_app (x : value) (l l' : list value) :
  occurrences x (l ++ l') = (occurrences x l + occurrences x l')%nat.
Proof. unfold occurrences. now rewrite filter_app, length_app. Qed.

Lemma occurrences_without_first (x : value) (l : list value) :
  occurrences x (without_first x l) = Nat.pred (occurrences x l).
Proof.
  unfold occurrences. induction l as [|e l IH]; simpl; [reflexivity|].
  destruct (py_eq e x) eqn:E; simpl; [reflexivity|]. now rewrite E.
Qed.

(** The claim C6 as it is written fails on a sequence that holds an item
    twice already, as after [set("stops", [1, 1])]: two calls of
    [add("stops", 1)] leave both occurrences, and after
    [add("stops", 1)] and [remove("stops", 1)] the sequence still
    contains [1]. *)
Lemma add_keeps_earlier_duplicates :
  let st := fst (set (boot {| files := []; locked := [] |}) "stops"
                     (VList [VInt 1; VInt 1])) in
  let st1 := fst (add st "stops" (VInt 1)) in
  let st2 := fst (add st1 "stops" (VInt 1)) in
  let st3 := fst (remove st1 "stops" (VInt 1)) in
  get st2 "stops" = Ok (VList [VInt 1; VInt 1])
  /\ occurrences (VInt 1) [VInt 1; VInt 1] = 2%nat
  /\ get st3 "stops" = Ok (VList [VInt 1])
  /\ snd (contains st3 "stops" (VInt 1)) = Ok true.
Proof. repeat split; reflexivity. Qed.

(** C6, amended. The value of the option is a sequence [l], no key of
    the store hides [_split_option], and [x] has no [nan] in it.  A
    second [add(option, x)] changes nothing; after [add] the sequence is
    [l] when [x] is in [l], and [l] followed by [x] when it is not, and
    it contains [x].  When [x] occurs at most once in [l], it occurs
    exactly once after the two calls of [add], and [remove(option, x)]
    after [add(option, x)] makes [contains(option, x)] false. *)
Theorem add_is_idempotent `{Builtins} (st : state) (option : string)
    (x : value) (l : list value) :
  roomy ->
  hides (self st) "_split_option" = false ->
  get st option = Ok (VList l) ->
  well_formed x = true ->
  has_nan x = false ->
  let st1 := fst (add st option x) in
  let st2 := fst (add st1 option x) in
  let st3 := fst (remove st1 option x) in
  let l1 := if existsb (fun e => py_eq e x) l then l else l ++ [x] in
  snd (add st option x) = Ok tt
  /\ snd (add st1 option x) = Ok tt
  /\ st2 = st1
  /\ get st2 option = Ok (VList l1)
  /\ snd (contains st2 option x) = Ok true
  /\ ((occurrences x l <= 1)%nat ->
      occurrences x l1 = 1%nat
      /\ snd (remove st1 option x) = Ok tt
      /\ snd (contains st3 option x) = Ok false).
Proof.
  intros Hroom Hh Hget Hwf Hnan st1 st2 st3 l1.
  destruct (add_list st option x l Hroom Hh Hnan Hget) as (Hr1 & Hg1 & Hh1 & _).
  fold st1 l1 in Hg1, Hh1.
  assert (Hin : existsb (fun e => py_eq e x) l1 = true).
  { subst l1. destruct (existsb (fun e => py_eq e x) l) eqn:Ex; [exact Ex|].
    rewrite existsb_app, Ex. simpl. now rewrite py_eq_refl. }
  destruct (add_list st1 option x l1 Hroom Hh1 Hnan Hg1) as (Hr2 & _ & _ & Hsame).
  assert (H21 : st2 = st1) by (apply Hsame, Hin).
  repeat split; try assumption.
  - now rewrite H21.
  - rewrite H21, (contains_list st1 option x l1 Hh1 Hnan Hg1). now rewrite Hin.
  - subst l1. rewrite occurrences_exists in *.
    destruct (occurrences x l) as [|[|n]] eqn:Eo; simpl in *; try lia.
    rewrite occurrences_app, Eo. unfold occurrences. simpl.
    now rewrite py_eq_refl.
  - apply (remove_list st1 option x l1 Hroom Hh1 Hnan Hg1).
  - destruct (remove_list st1 option x l1 Hroom Hh1 Hnan Hg1) as (_ & Hg3 & Hh3).
    fold st3 in Hg3, Hh3. rewrite Hin in Hg3.
    rewrite (contains_list st3 option x _ Hh3 Hnan Hg3), occurrences_exists.
    rewrite occurrences_without_first. subst l1.
    rewrite occurrences_exists in *.
    destruct (occurrences x l) as [|[|n]] eqn:Eo; simpl in *; try lia.
    + rewrite occurrences_app, Eo. unfold occurrences. simpl.
      now rewrite py_eq_refl.
    + now rewrite Eo.
Qed.

Lemma add_is_idempotent_witness :
  let st := fst (set (boot {| files := []; locked := [] |}) "stops"
                     (VList [VStr "a"; VStr "b"])) in
  let st1 := fst (add st "stops" (VStr "c")) in
  let st2 := fst (add st1 "stops" (VStr "c")) in
  let st3 := fst (remove st1 "stops" (VStr "c")) in
  get st "stops" = Ok (VList [VStr "a"; VStr "b"])
  /\ well_formed (VStr "c") = true
  /\ (occurrences (VStr "c") [VStr "a"; VStr "b"] <= 1)%nat
  /\ st2 = st1
  /\ get st2 "stops" = Ok (VList [VStr "a"; VStr "b"; VStr "c"])
  /\ snd (contains st3 "stops" (VStr "c")) = Ok false.
Proof.
  intros st st1 st2 st3.
  pose proof (@add_is_idempotent builtins st "stops" (VStr "c")
                [VStr "a"; VStr "b"] (fun _ => eq_refl) eq_refl eq_refl
                eq_refl eq_refl)
    as (_ & _ & Hsame & Hget & _ & Hone).
  assert (Hle : (occurrences (VStr "c") [VStr "a"; VStr "b"] <= 1)%nat)
    by (apply Nat.le_0_l).
  destruct (Hone Hle) as (_ & _ & Hgone).
  repeat split; try reflexivity; assumption.
Defined.

(* ===================================================================== *)
(** * What registration and loading do to one dictionary *)
(* ===================================================================== *)

(** [_register] and [_update] go through the values together with a
    dictionary of the store and a dictionary of [DEFAULTS].  As long as
    nothing sends them elsewhere (a value [None] where a dictionary is
    expected makes them start again from the store itself), what they do
    to the entry under one key depends on this entry and on the entry of
    the defaults under the same key only.  The functions of this section
    say what is done to an entry ([None]: the key is absent); the lemmas
    that follow them show that the methods do just that. *)

Definition transformer : Type :=
  option node -> option value -> option node * option value * list diag.

Definition put {V : Type} (k : string) (o : option V) (d : list (string * V))
  : list (string * V) :=
  match o with
  | Some v => dict_set k v d
  | None => d
  end.

Definition or_else {V : Type} (o o' : option V) : option V :=
  match o with
  | Some v => Some v
  | None => o'
  end.

(** The loop over [values.items()]. *)
Definition merge_items (tr : string -> value -> transformer)
  : list (string * value) -> list (string * node) -> list (string * value)
    -> list (string * node) * list (string * value) * list diag :=
  fix loop items r d :=
    match items with
    | [] => (r, d, [])
    | (name, val) :: rest =>
        let '(on, od, lines) := tr name val (lookup name r) (lookup name d) in
        let '(r', d', lines') := loop rest (put name on r) (put name od d) in
        (r', d', lines ++ lines')
    end.

(** The dictionary that an entry stands for: a new [AttrDict()] in the
    store, a new [{}] in the defaults, when the key is absent. *)
Definition node_items (on : option node) : bool * list (string * node) :=
  match on with
  | Some (NDict attr r) => (attr, r)
  | _ => (true, [])
  end.

Definition value_items (od : option value) : list (string * value) :=
  match od with
  | Some (VDict d) => d
  | _ => []
  end.

(** What is done to the entry of a nested dictionary of the values, given
    what is done for a value that is no dictionary. *)
Fixpoint merged (at_leaf : list string -> string -> value -> transformer)
    (values : value) (path : list string) {struct values} : transformer :=
  fun on od =>
    match values with
    | VDict items =>
        let '(r', d', lines) :=
          merge_items
            (fun name val =>
               if is_dict val then merged at_leaf val (path ++ [name])
               else at_leaf path name val)
            items (snd (node_items on)) (value_items od) in
        (Some (NDict (fst (node_items on)) r'), Some (VDict d'), lines)
    | _ => (on, od, [])
    end.

(** [_register], for a value that is no dictionary: [setdefault] on both
    sides. *)
Definition registered_leaf (path : list string) (name : string) (val : value)
  : transformer :=
  fun on od => (Some match on with Some n => n | None => embed val end,
                Some match od with Some v => v | None => val end,
                []).

(** [_update], for a value that is no dictionary: the [try]. *)
Definition loaded_leaf `{Builtins} (path : list string) (name : string)
    (val : value) : transformer :=
  fun on od =>
    match (match od with
           | Some ref => _coerce NNone val ref
           | None => Ok val
           end) with
    | Raise e => (on, od, [Discarded (full_name path name) val e])
    | Ok val' =>
        match deepcopy val' with
        | Raise e => (on, od, [Discarded (full_name path name) val' e])
        | Ok c => (Some (embed c), od, [])
        end
    end.

(** ** When nothing sends the methods elsewhere *)

Definition entry (on : option node) (name : string) : option node :=
  match on with
  | Some (NDict _ r) => lookup name r
  | _ => None
  end.

Definition ventry (od : option value) (name : string) : option value :=
  match od with
  | Some (VDict d) => lookup name d
  | _ => None
  end.

(** Wherever the values have a dictionary, the entry of the store and the
    entry of the defaults are dictionaries or absent, and the dictionary
    of the store, when it is an [AttrDict], has no key ["setdefault"]. *)
Fixpoint fits (values : value) (on : option node) (od : option value)
    {struct values} : bool :=
  match values with
  | VDict items =>
      match on with
      | None => true
      | Some (NDict attr r) => negb (attr && mem "setdefault" r)
      | Some _ => false
      end
      && match od with
         | None | Some (VDict _) => true
         | Some _ => false
         end
      && (fix all (items : list (string * value)) : bool :=
            match items with
            | [] => true
            | (name, val) :: rest =>
                fits val (entry on name) (ventry od name) && all rest
            end) items
  | _ => true
  end.

(** No dictionary of the values has the key [name]. *)
Fixpoint avoids (name : string) (values : value) : bool :=
  match values with
  | VDict items =>
      negb (mem name items)
      && (fix all (items : list (string * value)) : bool :=
            match items with
            | [] => true
            | (_, val) :: rest => avoids name val && all rest
            end) items
  | _ => true
  end.

(** The world in which the dictionary at [pr] and the dictionary at [pd]
    have been replaced and the lines printed. *)
Definition plugged (w : world) (pr pd : list string) (attr : bool)
    (out : list (string * node) * list (string * value) * list diag) : world :=
  {| w_store := plug (w_store w) pr (NDict attr (fst (fst out)));
     w_defaults := vplug (w_defaults w) pd (VDict (snd (fst out)));
     w_stderr := w_stderr w ++ snd out |}.

Lemma well_formed_items (items : list (string * value)) :
  well_formed (VDict items) = true ->
  distinct (keys items) = true
  /\ Forall (fun kv => well_formed (snd kv) = true) items.
Proof.
  rewrite well_formed_dict. intros Hwf.
  apply andb_prop in Hwf as [Hd Hall]. split; [exact Hd|].
  apply Forall_forall. intros kv Hin.
  rewrite forallb_forall in Hall. now apply Hall.
Qed.

Lemma avoids_dict (name : string) (items : list (string * value)) :
  avoids name (VDict items)
  = negb (mem name items) && forallb (fun kv => avoids name (snd kv)) items.
Proof.
  simpl. f_equal. induction items as [|[k x] items IH]; [reflexivity|].
  simpl. now rewrite <- IH.
Qed.

Lemma fits_dict (items : list (string * value)) (on : option node)
    (od : option value) :
  fits (VDict items) on od
  = match on with
    | None => true
    | Some (NDict attr r) => negb (attr && mem "setdefault" r)
    | Some _ => false
    end
    && match od with
       | None | Some (VDict _) => true
       | Some _ => false
       end
    && forallb (fun kv => fits (snd kv) (entry on (fst kv))
                               (ventry od (fst kv))) items.
Proof.
  simpl. f_equal. induction items as [|[k x] items IH]; [reflexivity|].
  simpl. now rewrite <- IH.
Qed.

Lemma lookup_put_other (V : Type) (k k' : string) (o : option V)
    (d : list (string * V)) :
  k <> k' -> lookup k' (put k o d) = lookup k' d.
Proof.
  intros Hne. destruct o; [|reflexivity]. simpl.
  now apply lookup_dict_set_other.
Qed.

Lemma lookup_put_same (V : Type) (k : string) (o : option V)
    (d : list (string * V)) :
  lookup k (put k o d) = or_else o (lookup k d).
Proof. destruct o; [|reflexivity]. simpl. apply lookup_dict_set_same. Qed.

Lemma mem_put_other (V : Type) (k k' : string) (o : option V)
    (d : list (string * V)) :
  k <> k' -> mem k' (put k o d) = mem k' d.
Proof. intros Hne. unfold mem. now rewrite lookup_put_other. Qed.

Lemma not_in_keys (V : Type) (k : string) (d : list (string * V)) :
  existsb (String.eqb k) (keys d) = false ->
  forall kv, In kv d -> k <> fst kv.
Proof.
  intros Hex kv Hin ->.
  assert (existsb (String.eqb (fst kv)) (keys d) = true).
  { apply existsb_exists. exists (fst kv). split; [|apply String.eqb_refl].
    unfold keys. now apply in_map. }
  congruence.
Qed.

Lemma mem_false_neq (V : Type) (k name : string) (v : V)
    (d : list (string * V)) :
  mem k ((name, v) :: d) = false -> name <> k /\ mem k d = false.
Proof.
  unfold mem. simpl. destruct (String.eqb_spec k name) as [->|Hne];
    [discriminate|]. intros Hm. split; [congruence|exact Hm].
Qed.

(** ** [setdefault] *)

Definition found {V : Type} (o : option V) (new : V) : V :=
  match o with
  | Some v => v
  | None => new
  end.

Lemma dict_setdefault_set (attr : bool) (r : list (string * node))
    (name : string) (new : node) :
  dict_setdefault (NDict attr r) name new
  = (NDict attr (dict_set name (found (lookup name r) new) r),
     found (lookup name r) new).
Proof.
  simpl. destruct (lookup name r) as [n|] eqn:E; simpl.
  - now rewrite dict_set_present.
  - now rewrite dict_set_absent.
Qed.

Lemma setdefault_set (d : list (string * value)) (name : string)
    (new : value) :
  setdefault (VDict d) name new
  = Ok (VDict (dict_set name (found (lookup name d) new) d),
        found (lookup name d) new).
Proof.
  simpl. destruct (lookup name d) as [n|] eqn:E; simpl.
  - now rewrite dict_set_present.
  - now rewrite dict_set_absent.
Qed.

Lemma root_setdefault_dict (w : world) (pr : list string) (name : string)
    (new : unit -> result node) (attr : bool) (r : list (string * node))
    (n : node) :
  sub (w_store w) pr = Some (NDict attr r) ->
  attr && mem "setdefault" r = false ->
  new tt = Ok n ->
  root_setdefault w pr name new
  = (with_store w (plug (w_store w) pr
                        (NDict attr (dict_set name
                                       (found (lookup name r) n) r))),
     Ok (found (lookup name r) n)).
Proof.
  intros Hs Hsd Hn. unfold root_setdefault. rewrite Hs.
  cbn [attr_setdefault bind]. rewrite Hsd, Hn. cbn [negb bind].
  now rewrite dict_setdefault_set.
Qed.

Lemma defaults_setdefault_dict (w : world) (pd : list string) (name : string)
    (new : unit -> result value) (d : list (string * value)) (v : value) :
  vsub (w_defaults w) pd = Some (VDict d) ->
  new tt = Ok v ->
  defaults_setdefault w pd name new
  = (with_defaults w (vplug (w_defaults w) pd
                            (VDict (dict_set name
                                      (found (lookup name d) v) d))),
     Ok (found (lookup name d) v)).
Proof.
  intros Hd Hv. unfold defaults_setdefault. rewrite Hd.
  cbn [items_of bind]. rewrite Hv. cbn [bind].
  now rewrite setdefault_set.
Qed.

(** ** What hides a method stays away *)

Lemma hides_put (store : node) (pr : list string) (attr : bool)
    (r r' : list (string * node)) (method : string) :
  sub store pr = Some (NDict attr r) ->
  hides store method = false ->
  (pr = [] -> mem method r' = mem method r) ->
  hides (plug store pr (NDict attr r')) method = false.
Proof.
  intros Hs Hh Htop. destruct pr as [|k pr].
  - simpl in Hs |- *. injection Hs as ->. simpl in Hh.
    destruct attr; [|reflexivity]. now rewrite Htop.
  - now rewrite hides_plug by discriminate.
Qed.

Lemma prefix_length (q a : list string) :
  prefix q a = true -> (List.length q <= List.length a)%nat.
Proof.
  revert a. induction q as [|k q IH]; intros [|k' a]; simpl;
    try discriminate; try lia.
  intros Hp. apply andb_prop in Hp as [_ Hp]. apply IH in Hp. lia.
Qed.

(** No call of [_update] that has not returned works in a dictionary
    below [pr]. *)
Definition above (pr : list string) (active : list (list string)) : Prop :=
  Forall (fun a => (List.length a <= List.length pr)%nat) active.

Lemma above_none (pr : list string) (name : string)
    (active : list (list string)) :
  above pr active -> existsb (prefix (pr ++ [name])) active = false.
Proof.
  intros Ha. destruct (existsb (prefix (pr ++ [name])) active) eqn:E;
    [|reflexivity].
  apply existsb_exists in E as (a & Hin & Hp).
  apply prefix_length in Hp. rewrite length_app in Hp. simpl in Hp.
  unfold above in Ha. rewrite Forall_forall in Ha.
  specialize (Ha a Hin). lia.
Qed.

Lemma above_nested (pr : list string) (name : string)
    (active : list (list string)) :
  above pr active -> above (pr ++ [name]) (pr :: active).
Proof.
  intros Ha. constructor.
  - rewrite length_app. simpl. lia.
  - eapply Forall_impl; [|exact Ha]. intros a Hl.
    rewrite length_app. simpl in *. lia.
Qed.

(** ** The worlds that the two methods leave *)

Lemma plugged_same (w : world) (pr pd : list string) (attr : bool)
    (r : list (string * node)) (d : list (string * value)) :
  sub (w_store w) pr = Some (NDict attr r) ->
  vsub (w_defaults w) pd = Some (VDict d) ->
  plugged w pr pd attr (r, d, []) = w.
Proof.
  intros Hs Hd. unfold plugged. cbn [fst snd].
  rewrite (plug_same _ _ _ Hs), (vplug_same _ _ _ Hd), app_nil_r.
  now destruct w.
Qed.

Lemma plugged_plugged (w : world) (pr pd : list string) (attr : bool)
    (r0 r1 r2 : list (string * node)) (d0 d1 d2 : list (string * value))
    (l1 l2 : list diag) :
  sub (w_store w) pr = Some (NDict attr r0) ->
  vsub (w_defaults w) pd = Some (VDict d0) ->
  plugged (plugged w pr pd attr (r1, d1, l1)) pr pd attr (r2, d2, l2)
  = plugged w pr pd attr (r2, d2, l1 ++ l2).
Proof.
  intros Hs Hd. unfold plugged. cbn [fst snd w_store w_defaults w_stderr].
  now rewrite (plug_plug _ _ _ _ _ Hs), (vplug_vplug _ _ _ _ _ Hd), app_assoc.
Qed.

Lemma plugged_stored (w : world) (pr pd : list string) (attr : bool)
    (r r' : list (string * node)) (d : list (string * value)) :
  sub (w_store w) pr = Some (NDict attr r) ->
  vsub (w_defaults w) pd = Some (VDict d) ->
  plugged w pr pd attr (r', d, [])
  = with_store w (plug (w_store w) pr (NDict attr r')).
Proof.
  intros Hs Hd. unfold plugged, with_store. cbn [fst snd].
  now rewrite (vplug_same _ _ _ Hd), app_nil_r.
Qed.

Lemma plugged_printed (w : world) (pr pd : list string) (attr : bool)
    (r : list (string * node)) (d : list (string * value)) (line : diag) :
  sub (w_store w) pr = Some (NDict attr r) ->
  vsub (w_defaults w) pd = Some (VDict d) ->
  plugged w pr pd attr (r, d, [line]) = printing w line.
Proof.
  intros Hs Hd. unfold plugged, printing. cbn [fst snd].
  now rewrite (plug_same _ _ _ Hs), (vplug_same _ _ _ Hd).
Qed.

(** The entry under [name] of the dictionary at [pr] has been set to
    [got], and then something has been put in its place. *)
Lemma plug_entry (s : node) (pr : list string) (attr : bool)
    (r : list (string * node)) (name : string) (got x : node) :
  sub s pr = Some (NDict attr r) ->
  plug (plug s pr (NDict attr (dict_set name got r))) (pr ++ [name]) x
  = plug s pr (NDict attr (dict_set name x r)).
Proof.
  intros Hs.
  rewrite plug_app with (r := NDict attr (dict_set name got r))
    by (now apply sub_plug with (NDict attr r)).
  rewrite plug_plug with (r := NDict attr r) by assumption.
  simpl. now rewrite lookup_dict_set_same, dict_set_twice.
Qed.

Lemma vplug_entry (s : value) (pd : list string)
    (d : list (string * value)) (name : string) (got x : value) :
  vsub s pd = Some (VDict d) ->
  vplug (vplug s pd (VDict (dict_set name got d))) (pd ++ [name]) x
  = vplug s pd (VDict (dict_set name x d)).
Proof.
  intros Hs.
  rewrite vplug_app with (r := VDict (dict_set name got d))
    by (now apply vsub_vplug with (VDict d)).
  rewrite vplug_vplug with (r := VDict d) by assumption.
  simpl. now rewrite lookup_dict_set_same, dict_set_twice.
Qed.

Lemma put_lookup (V : Type) (k : string) (d : list (string * V)) :
  put k (lookup k d) d = d.
Proof.
  destruct (lookup k d) as [v|] eqn:E; [|reflexivity].
  simpl. now apply dict_set_present.
Qed.

(** The entries that stand for a dictionary, when the values fit. *)
Lemma fits_found (items : list (string * value)) (on : option node)
    (od : option value) :
  fits (VDict items) on od = true ->
  found on (NDict true []) = NDict (fst (node_items on)) (snd (node_items on))
  /\ found od (VDict []) = VDict (value_items od)
  /\ fst (node_items on) && mem "setdefault" (snd (node_items on)) = false
  /\ fits (VDict items) (Some (found on (NDict true [])))
          (Some (found od (VDict []))) = true.
Proof.
  rewrite !fits_dict. intros Hf.
  apply andb_prop in Hf as [Hf Hall]. apply andb_prop in Hf as [Hon Hod].
  destruct on as [[| | | | | |attr r]|]; try discriminate;
    destruct od as [[| | | | | |d]|]; try discriminate; simpl in *;
    rewrite ?Hon; repeat split; try reflexivity; try assumption;
    now apply negb_true_iff in Hon.
Qed.

(** ** [_update], item by item *)

Lemma update_items_cons `{Builtins}
    (rec : value -> list string -> list string -> list string
           -> list (list string) -> world -> world * result unit)
    (kv : string * value) (rest : list (string * value))
    (pr pd path : list string) (active : list (list string)) (w : world) :
  update_items rec (kv :: rest) pr pd path active w
  = match update_items rec [kv] pr pd path active w with
    | (w1, Ok _) => update_items rec rest pr pd path active w1
    | (w1, Raise e) => (w1, Raise e)
    end.
Proof.
  destruct kv as [name val]. simpl.
  destruct (is_dict val).
  - destruct (root_setdefault w pr name _) as [w1 [got|e]]; [|reflexivity].
    destruct (defaults_setdefault w1 pd name _) as [w2 [dgot|e]];
      [|reflexivity].
    destruct (negb (hides (w_store w) "_update")); [|reflexivity].
    now destruct (rec val _ _ _ _ w2) as [w3 [[]|e]].
  - now destruct (store_leaf w pr pd name val active).
Qed.

Definition loaded_item `{Builtins} (path : list string) (name : string)
    (val : value) : transformer :=
  if is_dict val then merged loaded_leaf val (path ++ [name])
  else loaded_leaf path name val.

(** What a call of [_update] for the dictionary [doc] does when nothing
    sends it elsewhere. *)
Definition update_spec `{Builtins}
    (rec : value -> list string -> list string -> list string
           -> list (list string) -> world -> world * result unit)
    (doc : value) : Prop :=
  forall items, doc = VDict items ->
  forall (pr pd path : list string) (active : list (list string)) (w : world)
         (attr : bool) (r : list (string * node)) (d : list (string * value)),
    sub (w_store w) pr = Some (NDict attr r) ->
    vsub (w_defaults w) pd = Some (VDict d) ->
    well_formed doc = true ->
    avoids "setdefault" doc = true ->
    fits doc (Some (NDict attr r)) (Some (VDict d)) = true ->
    hides (w_store w) "_update" = false ->
    hides (w_store w) "_coerce" = false ->
    (pr = [] -> mem "_update" items = false /\ mem "_coerce" items = false) ->
    above pr active ->
    rec doc pr pd path active w
    = (plugged w pr pd attr (merge_items (loaded_item path) items r d), Ok tt).

Lemma update_item_refines `{Builtins}
    (rec : value -> list string -> list string -> list string
           -> list (list string) -> world -> world * result unit)
    (name : string) (val : value) :
  update_spec rec val ->
  forall (pr pd path : list string) (active : list (list string)) (w : world)
         (attr : bool) (r : list (string * node)) (d : list (string * value)),
    sub (w_store w) pr = Some (NDict attr r) ->
    vsub (w_defaults w) pd = Some (VDict d) ->
    well_formed val = true ->
    avoids "setdefault" val = true ->
    attr && mem "setdefault" r = false ->
    fits val (lookup name r) (lookup name d) = true ->
    hides (w_store w) "_update" = false ->
    hides (w_store w) "_coerce" = false ->
    (pr = [] -> name <> "_update" /\ name <> "_coerce") ->
    above pr active ->
    update_items rec [(name, val)] pr pd path active w
    = (plugged w pr pd attr
         (let '(on, od, lines) :=
            loaded_item path name val (lookup name r) (lookup name d) in
          (put name on r, put name od d, lines)),
       Ok tt).
Proof.
  intros Hrec pr pd path active w attr r d Hs Hd Hwf Hav Hsd Hfits Hup Hco
    Htop Hact.
  unfold loaded_item. cbn [update_items].
  destruct (is_dict val) eqn:Edict.
  - (* a nested dictionary *)
    destruct val as [| | | | | |items]; try discriminate.
    destruct (fits_found _ _ _ Hfits) as (Hgot & Hdgot & Hsd' & Hfits').
    rewrite root_setdefault_dict with (attr := attr) (r := r)
                                      (n := NDict true [])
      by (assumption || reflexivity).
    rewrite defaults_setdefault_dict with (d := d) (v := VDict [])
      by (assumption || reflexivity).
    rewrite Hup, Hgot, Hdgot. cbn [negb is_none v_is_none place].
    set (w2 := with_defaults _ _).
    assert (Hs2 : sub (w_store w2) pr
                  = Some (NDict attr (dict_set name
                            (NDict (fst (node_items (lookup name r)))
                                   (snd (node_items (lookup name r)))) r)))
      by (subst w2; cbn [w_store with_defaults with_store];
          now apply sub_plug with (NDict attr r)).
    assert (Hd2 : vsub (w_defaults w2) pd
                  = Some (VDict (dict_set name
                            (VDict (value_items (lookup name d))) d)))
      by (subst w2; cbn [w_defaults with_defaults with_store];
          now apply vsub_vplug with (VDict d)).
    rewrite (Hrec items eq_refl (pr ++ [name]) (pd ++ [name]) (path ++ [name])
               (pr :: active) w2 (fst (node_items (lookup name r)))
               (snd (node_items (lookup name r)))
               (value_items (lookup name d))).
    + cbn [merged]. unfold loaded_item.
      destruct (merge_items _ items _ _) as [[r' d'] lines].
      f_equal. unfold plugged. cbn [fst snd put].
      subst w2. cbn [w_store w_defaults w_stderr with_defaults with_store].
      now rewrite (plug_entry _ _ _ _ _ _ _ Hs), (vplug_entry _ _ _ _ _ _ Hd).
    + rewrite sub_app, Hs2. simpl. now rewrite lookup_dict_set_same.
    + rewrite vsub_app, Hd2. simpl. now rewrite lookup_dict_set_same.
    + assumption.
    + assumption.
    + now rewrite <- Hgot, <- Hdgot.
    + subst w2. cbn [w_store with_defaults with_store].
      apply hides_put with r; try assumption.
      intros Hpr. unfold mem.
      now rewrite lookup_dict_set_other by (apply Htop, Hpr).
    + subst w2. cbn [w_store with_defaults with_store].
      apply hides_put with r; try assumption.
      intros Hpr. unfold mem.
      now rewrite lookup_dict_set_other by (apply Htop, Hpr).
    + intros Hnil. now destruct pr.
    + now apply above_nested.
  - (* a value that is no dictionary *)
    unfold store_leaf, loaded_leaf. rewrite Hs, Hd, Hco.
    cbn [py_in]. unfold mem.
    assert (Hc : forall ref, _coerce (w_store w) val ref = _coerce NNone val ref)
      by (apply _coerce_self; now rewrite Hco).
    assert (Hassign : forall v,
      match
        match c <- deepcopy v;; node_setitem (NDict attr r) name (embed c) with
        | Ok root' =>
            if existsb (prefix (pr ++ [name])) active then Replaced
            else Stored (with_store w (plug (w_store w) pr root'))
        | Raise e => Caught v e
        end
      with
      | Stored w' => (w', Ok tt)
      | Caught shown error =>
          (printing w (Discarded (full_name path name) shown error), Ok tt)
      | Replaced => (w, Raise Unmodelled)
      end
      = (plugged w pr pd attr
           match deepcopy v with
           | Ok c => (dict_set name (embed c) r, d, [])
           | Raise e => (r, d, [Discarded (full_name path name) v e])
           end, Ok tt)).
    { intros v. destruct (deepcopy v) as [c|e]; cbn [bind node_setitem].
      - rewrite above_none by assumption.
        now rewrite plugged_stored with (r := r).
      - now rewrite plugged_printed. }
    cbn [update_items].
    destruct (lookup name d) as [ref|] eqn:Eref.
    + cbn [getitem]. rewrite Eref. cbn [bind]. rewrite Hc.
      destruct (_coerce NNone val ref) as [val'|e].
      * rewrite Hassign. f_equal. f_equal.
        destruct (deepcopy val'); cbn [put];
          now rewrite ?put_lookup, (dict_set_present _ name ref d Eref).
      * rewrite put_lookup. cbn [put].
        rewrite (dict_set_present _ name ref d Eref).
        now rewrite plugged_printed.
    + rewrite Hassign. f_equal. f_equal.
      destruct (deepcopy val); cbn [put]; now rewrite ?put_lookup.
Qed.

Lemma merge_items_cons (tr : string -> value -> transformer) (name : string)
    (val : value) (rest : list (string * value)) (r : list (string * node))
    (d : list (string * value)) :
  merge_items tr ((name, val) :: rest) r d
  = let '(on, od, lines) := tr name val (lookup name r) (lookup name d) in
    let '(r', d', lines') :=
      merge_items tr rest (put name on r) (put name od d) in
    (r', d', lines ++ lines').
Proof. reflexivity. Qed.

Lemma fits_rest (rest : list (string * value)) (name : string)
    (on : option node) (od : option value) (r : list (string * node))
    (d : list (string * value)) :
  existsb (String.eqb name) (keys rest) = false ->
  forallb (fun kv => fits (snd kv) (lookup (fst kv) r) (lookup (fst kv) d))
          rest = true ->
  forallb (fun kv => fits (snd kv) (lookup (fst kv) (put name on r))
                          (lookup (fst kv) (put name od d))) rest = true.
Proof.
  intros Hfresh Hall. apply forallb_forall. intros kv Hin.
  rewrite forallb_forall in Hall.
  pose proof (not_in_keys _ name rest Hfresh kv Hin) as Hne.
  rewrite !lookup_put_other by assumption. now apply Hall.
Qed.

Lemma update_items_refines `{Builtins}
    (rec : value -> list string -> list string -> list string
           -> list (list string) -> world -> world * result unit)
    (items : list (string * value)) :
  Forall (fun kv => update_spec rec (snd kv)) items ->
  forall (pr pd path : list string) (active : list (list string)) (w : world)
         (attr : bool) (r : list (string * node)) (d : list (string * value)),
    sub (w_store w) pr = Some (NDict attr r) ->
    vsub (w_defaults w) pd = Some (VDict d) ->
    distinct (keys items) = true ->
    Forall (fun kv => well_formed (snd kv) = true) items ->
    mem "setdefault" items = false ->
    forallb (fun kv => avoids "setdefault" (snd kv)) items = true ->
    attr && mem "setdefault" r = false ->
    forallb (fun kv => fits (snd kv) (lookup (fst kv) r) (lookup (fst kv) d))
            items = true ->
    hides (w_store w) "_update" = false ->
    hides (w_store w) "_coerce" = false ->
    (pr = [] -> mem "_update" items = false /\ mem "_coerce" items = false) ->
    above pr active ->
    update_items rec items pr pd path active w
    = (plugged w pr pd attr (merge_items (loaded_item path) items r d), Ok tt).
Proof.
  induction items as [|[name val] rest IH];
    intros Hrec pr pd path active w attr r d Hs Hd Hdist Hwf Hnosd Hav Hsd
      Hfits Hup Hco Htop Hact.
  - simpl. now rewrite plugged_same.
  - inversion Hrec as [|? ? Hrec1 Hrec']; subst.
    inversion Hwf as [|? ? Hwf1 Hwf']; subst. simpl in Hwf1, Hrec1.
    simpl in Hdist, Hav, Hfits.
    apply andb_prop in Hdist as [Hfresh Hdist].
    apply negb_true_iff in Hfresh.
    apply andb_prop in Hav as [Hav1 Hav'].
    apply andb_prop in Hfits as [Hfits1 Hfits'].
    apply mem_false_neq in Hnosd as [Hname Hnosd].
    assert (Htop1 : pr = [] -> name <> "_update" /\ name <> "_coerce").
    { intros Hpr. destruct (Htop Hpr) as [Hu Hc].
      apply mem_false_neq in Hu as [Hu _].
      apply mem_false_neq in Hc as [Hc _]. now split. }
    rewrite update_items_cons.
    rewrite (update_item_refines rec name val Hrec1 pr pd path active w
               attr r d) by assumption.
    rewrite merge_items_cons.
    destruct (loaded_item path name val (lookup name r) (lookup name d))
      as [[on od] lines].
    set (w1 := plugged w pr pd attr (put name on r, put name od d, lines)).
    assert (Hs1 : sub (w_store w1) pr = Some (NDict attr (put name on r)))
      by (now apply sub_plug with (NDict attr r)).
    assert (Hd1 : vsub (w_defaults w1) pd = Some (VDict (put name od d)))
      by (now apply vsub_vplug with (VDict d)).
    rewrite (IH Hrec' pr pd path active w1 attr (put name on r)
               (put name od d)); try assumption.
    + destruct (merge_items (loaded_item path) rest (put name on r)
                  (put name od d)) as [[r' d'] lines'].
      subst w1. now rewrite plugged_plugged with (r0 := r) (d0 := d).
    + now rewrite mem_put_other.
    + now apply fits_rest.
    + apply hides_put with r; try assumption.
      intros Hpr. apply mem_put_other. now apply Htop1.
    + apply hides_put with r; try assumption.
      intros Hpr. apply mem_put_other. now apply Htop1.
    + intros Hpr. destruct (Htop Hpr) as [Hu Hc].
      apply mem_false_neq in Hu as [_ Hu].
      apply mem_false_neq in Hc as [_ Hc]. now split.
Qed.

(** [_update] does to the dictionaries it is given what [merged] says. *)
Lemma _update_refines `{Builtins} (doc : value) :
  update_spec (fun v pr pd path active w => _update v pr pd path active w) doc.
Proof.
  induction doc as [| | | | |l _|items IH] using value_nested_ind;
    intros items' Heq; try discriminate.
  injection Heq as <-.
  intros pr pd path active w attr r d Hs Hd Hwf Hav Hfits Hup Hco Htop Hact.
  destruct (well_formed_items items Hwf) as [Hdist Hwfs].
  rewrite avoids_dict in Hav. apply andb_prop in Hav as [Hnosd Hav].
  apply negb_true_iff in Hnosd.
  rewrite fits_dict in Hfits. apply andb_prop in Hfits as [Hfits Hall].
  apply andb_prop in Hfits as [Hsd _]. apply negb_true_iff in Hsd.
  cbn [_update].
  now apply update_items_refines.
Qed.

(** ** [_register], item by item *)

Lemma register_items_cons `{Builtins}
    (rec : value -> list string -> list string -> world -> world * result unit)
    (kv : string * value) (rest : list (string * value))
    (pr pd : list string) (w : world) :
  register_items rec (kv :: rest) pr pd w
  = match register_items rec [kv] pr pd w with
    | (w1, Ok _) => register_items rec rest pr pd w1
    | (w1, Raise e) => (w1, Raise e)
    end.
Proof.
  destruct kv as [name val]. simpl.
  destruct (is_dict val).
  - destruct (root_setdefault w pr name _) as [w1 [got|e]]; [|reflexivity].
    destruct (defaults_setdefault w1 pd name _) as [w2 [dgot|e]];
      [|reflexivity].
    destruct (negb (hides (w_store w) "_register")); [|reflexivity].
    now destruct (rec val _ _ w2) as [w3 [[]|e]].
  - destruct (root_setdefault w pr name _) as [w1 [got|e]]; [|reflexivity].
    now destruct (defaults_setdefault w1 pd name _) as [w2 [dgot|e]].
Qed.

Definition registered_item (path : list string) (name : string) (val : value)
  : transformer :=
  if is_dict val then merged registered_leaf val (path ++ [name])
  else registered_leaf path name val.

(** What a call of [_register] for the dictionary [values] does when
    nothing sends it elsewhere. *)
Definition register_spec `{Builtins}
    (rec : value -> list string -> list string -> world -> world * result unit)
    (values : value) : Prop :=
  forall items, values = VDict items ->
  forall (pr pd path : list string) (w : world)
         (attr : bool) (r : list (string * node)) (d : list (string * value)),
    sub (w_store w) pr = Some (NDict attr r) ->
    vsub (w_defaults w) pd = Some (VDict d) ->
    well_formed values = true ->
    avoids "setdefault" values = true ->
    fits values (Some (NDict attr r)) (Some (VDict d)) = true ->
    hides (w_store w) "_register" = false ->
    (pr = [] -> mem "_register" items = false) ->
    rec values pr pd w
    = (plugged w pr pd attr (merge_items (registered_item path) items r d),
       Ok tt).

Lemma register_item_refines `{Builtins}
    (rec : value -> list string -> list string -> world -> world * result unit)
    (name : string) (val : value) :
  roomy ->
  register_spec rec val ->
  forall (pr pd path : list string) (w : world)
         (attr : bool) (r : list (string * node)) (d : list (string * value)),
    sub (w_store w) pr = Some (NDict attr r) ->
    vsub (w_defaults w) pd = Some (VDict d) ->
    well_formed val = true ->
    avoids "setdefault" val = true ->
    attr && mem "setdefault" r = false ->
    fits val (lookup name r) (lookup name d) = true ->
    hides (w_store w) "_register" = false ->
    (pr = [] -> name <> "_register") ->
    register_items rec [(name, val)] pr pd w
    = (plugged w pr pd attr
         (let '(on, od, lines) :=
            registered_item path name val (lookup name r) (lookup name d) in
          (put name on r, put name od d, lines)),
       Ok tt).
Proof.
  intros Hroom Hrec pr pd path w attr r d Hs Hd Hwf Hav Hsd Hfits Hreg Htop.
  unfold registered_item. cbn [register_items].
  destruct (is_dict val) eqn:Edict.
  - (* a nested dictionary *)
    destruct val as [| | | | | |items]; try discriminate.
    destruct (fits_found _ _ _ Hfits) as (Hgot & Hdgot & Hsd' & Hfits').
    rewrite root_setdefault_dict with (attr := attr) (r := r)
                                      (n := NDict true [])
      by (assumption || reflexivity).
    rewrite defaults_setdefault_dict with (d := d) (v := VDict [])
      by (assumption || reflexivity).
    rewrite Hreg, Hgot, Hdgot. cbn [negb is_none v_is_none place].
    set (w2 := with_defaults _ _).
    assert (Hs2 : sub (w_store w2) pr
                  = Some (NDict attr (dict_set name
                            (NDict (fst (node_items (lookup name r)))
                                   (snd (node_items (lookup name r)))) r)))
      by (subst w2; cbn [w_store with_defaults with_store];
          now apply sub_plug with (NDict attr r)).
    assert (Hd2 : vsub (w_defaults w2) pd
                  = Some (VDict (dict_set name
                            (VDict (value_items (lookup name d))) d)))
      by (subst w2; cbn [w_defaults with_defaults with_store];
          now apply vsub_vplug with (VDict d)).
    rewrite (Hrec items eq_refl (pr ++ [name]) (pd ++ [name]) (path ++ [name])
               w2 (fst (node_items (lookup name r)))
               (snd (node_items (lookup name r)))
               (value_items (lookup name d))).
    + cbn [merged]. unfold registered_item.
      destruct (merge_items _ items _ _) as [[r' d'] lines].
      f_equal. unfold plugged. cbn [fst snd put].
      subst w2. cbn [w_store w_defaults w_stderr with_defaults with_store].
      now rewrite (plug_entry _ _ _ _ _ _ _ Hs), (vplug_entry _ _ _ _ _ _ Hd).
    + rewrite sub_app, Hs2. simpl. now rewrite lookup_dict_set_same.
    + rewrite vsub_app, Hd2. simpl. now rewrite lookup_dict_set_same.
    + assumption.
    + assumption.
    + now rewrite <- Hgot, <- Hdgot.
    + subst w2. cbn [w_store with_defaults with_store].
      apply hides_put with r; try assumption.
      intros Hpr. unfold mem.
      now rewrite lookup_dict_set_other by (apply Htop, Hpr).
    + intros Hnil. now destruct pr.
  - (* a value that is no dictionary *)
    rewrite root_setdefault_dict with (attr := attr) (r := r) (n := embed val)
      by (try assumption; now rewrite deepcopy_roomy).
    rewrite defaults_setdefault_dict with (d := d) (v := val)
      by (try assumption; now apply deepcopy_roomy).
    unfold registered_leaf, plugged. f_equal.
    cbn [fst snd put w_store w_defaults w_stderr with_defaults with_store].
    now rewrite app_nil_r.
Qed.

Lemma register_items_refines `{Builtins}
    (rec : value -> list string -> list string -> world -> world * result unit)
    (items : list (string * value)) :
  roomy ->
  Forall (fun kv => register_spec rec (snd kv)) items ->
  forall (pr pd path : list string) (w : world)
         (attr : bool) (r : list (string * node)) (d : list (string * value)),
    sub (w_store w) pr = Some (NDict attr r) ->
    vsub (w_defaults w) pd = Some (VDict d) ->
    distinct (keys items) = true ->
    Forall (fun kv => well_formed (snd kv) = true) items ->
    mem "setdefault" items = false ->
    forallb (fun kv => avoids "setdefault" (snd kv)) items = true ->
    attr && mem "setdefault" r = false ->
    forallb (fun kv => fits (snd kv) (lookup (fst kv) r) (lookup (fst kv) d))
            items = true ->
    hides (w_store w) "_register" = false ->
    (pr = [] -> mem "_register" items = false) ->
    register_items rec items pr pd w
    = (plugged w pr pd attr (merge_items (registered_item path) items r d),
       Ok tt).
Proof.
  intros Hroom.
  induction items as [|[name val] rest IH];
    intros Hrec pr pd path w attr r d Hs Hd Hdist Hwf Hnosd Hav Hsd
      Hfits Hreg Htop.
  - simpl. now rewrite plugged_same.
  - inversion Hrec as [|? ? Hrec1 Hrec']; subst.
    inversion Hwf as [|? ? Hwf1 Hwf']; subst. simpl in Hwf1, Hrec1.
    simpl in Hdist, Hav, Hfits.
    apply andb_prop in Hdist as [Hfresh Hdist].
    apply negb_true_iff in Hfresh.
    apply andb_prop in Hav as [Hav1 Hav'].
    apply andb_prop in Hfits as [Hfits1 Hfits'].
    apply mem_false_neq in Hnosd as [Hname Hnosd].
    assert (Htop1 : pr = [] -> name <> "_register").
    { intros Hpr. pose proof (Htop Hpr) as Hu.
      now apply mem_false_neq in Hu as [Hu _]. }
    rewrite register_items_cons.
    rewrite (register_item_refines rec name val Hroom Hrec1 pr pd path w
               attr r d) by assumption.
    rewrite merge_items_cons.
    destruct (registered_item path name val (lookup name r) (lookup name d))
      as [[on od] lines].
    set (w1 := plugged w pr pd attr (put name on r, put name od d, lines)).
    assert (Hs1 : sub (w_store w1) pr = Some (NDict attr (put name on r)))
      by (now apply sub_plug with (NDict attr r)).
    assert (Hd1 : vsub (w_defaults w1) pd = Some (VDict (put name od d)))
      by (now apply vsub_vplug with (VDict d)).
    rewrite (IH Hrec' pr pd path w1 attr (put name on r)
               (put name od d)); try assumption.
    + destruct (merge_items (registered_item path) rest (put name on r)
                  (put name od d)) as [[r' d'] lines'].
      subst w1. now rewrite plugged_plugged with (r0 := r) (d0 := d).
    + now rewrite mem_put_other.
    + now apply fits_rest.
    + apply hides_put with r; try assumption.
      intros Hpr. apply mem_put_other. now apply Htop1.
    + intros Hpr. pose proof (Htop Hpr) as Hu.
      now apply mem_false_neq in Hu as [_ Hu].
Qed.

(** [_register] does to the dictionaries it is given what [merged]
    says. *)
Lemma _register_refines `{Builtins} (values : value) :
  roomy ->
  register_spec (fun v pr pd w => _register v pr pd w) values.
Proof.
  intros Hroom.
  induction values as [| | | | |l _|items IH] using value_nested_ind;
    intros items' Heq; try discriminate.
  injection Heq as <-.
  intros pr pd path w attr r d Hs Hd Hwf Hav Hfits Hreg Htop.
  destruct (well_formed_items items Hwf) as [Hdist Hwfs].
  rewrite avoids_dict in Hav. apply andb_prop in Hav as [Hnosd Hav].
  apply negb_true_iff in Hnosd.
  rewrite fits_dict in Hfits. apply andb_prop in Hfits as [Hfits Hall].
  apply andb_prop in Hfits as [Hsd _]. apply negb_true_iff in Hsd.
  cbn [_register].
  now apply register_items_refines.
Qed.
